(** * Sign-in reconciliation and token projection of the NextAuth route

    A shallow embedding of [src/app/api/auth/[...nextauth]/route.ts]:
    the admin allow-list test [isAdminEmail], the [signIn] callback that
    creates or updates a user document, the [jwt] callback that projects
    the document into the session token, and the [session] callback that
    copies the token into the outward session object.

    JavaScript objects with an open set of properties (the token, the
    session's user object, a session payload) are finite maps from property
    names to values; the user document, whose shape the code fixes, is a
    record.  Asynchronous store calls are steps of a state-and-exception
    monad over a [World] holding the collection, the list of store
    operations attempted so far, the console, and a fault schedule telling
    which attempts raise. *)

From Stdlib Require Import ZArith Ascii.
From stdpp Require Import gmap strings list.

Open Scope string_scope.
Open Scope list_scope.

(** ** JavaScript values *)

(** The values that occur as properties of a token or of a session user
    object. *)
Inductive JsVal : Type :=
| VUndefined
| VNull
| VBool (b : bool)
| VNum (n : Z)
| VStr (s : string)
| VStrs (l : list string).

#[global] Instance JsVal_eq_dec : EqDecision JsVal.
Proof. solve_decision. Defined.

(** An object with string keys.  Reading a property that is not there
    gives [undefined]. *)
Abbreviation JsObject := (gmap string JsVal).

Definition get (o : JsObject) (k : string) : JsVal :=
  default VUndefined (o !! k).

(** [Object.assign(target, source)]: every own property of [source] is
    written into [target]; properties of [target] that [source] does not
    have stay. *)
Definition Object_assign (target source : JsObject) : JsObject :=
  source ∪ target.

(** Truthiness of an optional string: [undefined] and [''] are falsy. *)
Definition truthy (o : option string) : bool :=
  match o with
  | Some s => negb (String.eqb s "")
  | None => false
  end.

(** [Array.prototype.includes] on strings or optional strings. *)
Definition includes {A} `{EqDecision A} (l : list A) (x : A) : bool :=
  existsb (fun y => bool_decide (y = x)) l.

Definition of_string (o : option string) : JsVal :=
  match o with
  | Some s => VStr s
  | None => VUndefined
  end.

(** ** Process configuration *)

Record ProcessEnv : Type := {
  ADMIN_EMAIL_1 : option string;
  ADMIN_EMAIL_2 : option string
}.

(** [String.prototype.toLowerCase] restricted to the ASCII letters, for
    running the callbacks on concrete inputs.  The development itself is
    parametric in the lower-casing function. *)
Definition lower_ascii (c : ascii) : ascii :=
  let n := nat_of_ascii c in
  if (65 <=? n)%nat && (n <=? 90)%nat then ascii_of_nat (n + 32) else c.

Fixpoint ascii_toLowerCase (s : string) : string :=
  match s with
  | EmptyString => EmptyString
  | String c s' => String (lower_ascii c) (ascii_toLowerCase s')
  end.

(** [String.prototype.toLowerCase], an operation of the JavaScript runtime
    that the development leaves open.  All it relies on is that a string
    that is not empty does not lower-case to what the empty string
    lower-cases to. *)
Class JsStrings : Type := {
  toLowerCase : string -> string;
  toLowerCase_empty : forall s, toLowerCase s = toLowerCase "" -> s = ""
}.

Section AllowList.

Context {JS : JsStrings}.

(** route.ts, lines 46-53 *)
Definition isAdminEmail (env : ProcessEnv) (email : string) : bool :=
  let adminEmails :=
    map (fun email => toLowerCase <$> email)
        (List.filter truthy [ADMIN_EMAIL_1 env; ADMIN_EMAIL_2 env]) in
  includes adminEmails (Some (toLowerCase email)).

(** An entry of the allow-list that is configured and not empty. *)
Definition configured (env : ProcessEnv) (a : string) : Prop :=
  (ADMIN_EMAIL_1 env = Some a ∨ ADMIN_EMAIL_2 env = Some a) ∧ a ≠ "".

End AllowList.

Arguments isAdminEmail : simpl never.

(** ** Data model *)

(** The identity NextAuth hands to the callbacks ([user]).  [name], [email]
    and [image] may be absent. *)
Record Identity : Type := {
  user_id : string;
  user_name : option string;
  user_email : option string;
  user_image : option string
}.

Record Account : Type := { provider : string }.

Record Stats : Type := {
  contributionPoints : Z;
  feedbackSubmitted : Z;
  bugsReported : Z;
  featuresProposed : Z;
  dataCorrections : Z;
  correctionsAccepted : Z
}.

Record Preferences : Type := {
  emailNotifications : bool;
  publicProfile : bool;
  showContributions : bool
}.

(** A document of the [User] collection, with the fields the route writes.
    [None] stands for an absent ([undefined] or [null]) property; dates are
    milliseconds since the epoch. *)
Record UserDoc : Type := {
  _id : string;
  email : option string;
  displayName : option string;
  username : string;
  image : option string;
  vrHeadset : option string;
  level : Z;
  rank : string;
  badges : list string;
  stats : Stats;
  roles : option (list string);
  preferences : Preferences;
  isActive : bool;
  isBanned : bool;
  lastLoginAt : Z
}.

#[global] Instance Stats_eq_dec : EqDecision Stats.
Proof. solve_decision. Defined.
#[global] Instance Preferences_eq_dec : EqDecision Preferences.
Proof. solve_decision. Defined.
#[global] Instance UserDoc_eq_dec : EqDecision UserDoc.
Proof. solve_decision. Defined.

(** Assignments to properties of a fetched document. *)
Definition set_roles (d : UserDoc) (r : list string) : UserDoc :=
  {| _id := _id d; email := email d; displayName := displayName d;
     username := username d; image := image d; vrHeadset := vrHeadset d;
     level := level d; rank := rank d; badges := badges d; stats := stats d;
     roles := Some r; preferences := preferences d; isActive := isActive d;
     isBanned := isBanned d; lastLoginAt := lastLoginAt d |}.

Definition set_rank (d : UserDoc) (r : string) : UserDoc :=
  {| _id := _id d; email := email d; displayName := displayName d;
     username := username d; image := image d; vrHeadset := vrHeadset d;
     level := level d; rank := r; badges := badges d; stats := stats d;
     roles := roles d; preferences := preferences d; isActive := isActive d;
     isBanned := isBanned d; lastLoginAt := lastLoginAt d |}.

Definition set_lastLoginAt (d : UserDoc) (t : Z) : UserDoc :=
  {| _id := _id d; email := email d; displayName := displayName d;
     username := username d; image := image d; vrHeadset := vrHeadset d;
     level := level d; rank := rank d; badges := badges d; stats := stats d;
     roles := roles d; preferences := preferences d; isActive := isActive d;
     isBanned := isBanned d; lastLoginAt := t |}.

Definition set_id (u : Identity) (i : string) : Identity :=
  {| user_id := i; user_name := user_name u; user_email := user_email u;
     user_image := user_image u |}.

(** [dbUser.roles || []] and [dbUser.roles || ["user"]]: an empty array is
    truthy, so only an absent list takes the default. *)
Definition roles_or (d : list string) (r : option (list string)) : list string :=
  default d r.

(** [dbUser.roles?.includes('admin')], with [undefined] falsy. *)
Definition has_admin (r : option (list string)) : bool :=
  match r with
  | Some l => includes l "admin"
  | None => false
  end.

(** What each callback reads from outside its arguments: the process
    configuration, the value of [new Date()], and the ObjectId that
    [new User(...)] draws for a document. *)
Record Runtime : Type := {
  env : ProcessEnv;
  now : Z;
  newObjectId : string
}.

(** ** The store and the asynchronous steps *)

(** The asynchronous calls the callbacks await. *)
Inductive StoreOp : Type :=
| ConnectDB
| FindOne (q : option string)
| FindById (i : JsVal)
| EnsureUniqueUsername (base : string)
| Insert (d : UserDoc)
| Update (d : UserDoc).

Inductive Exn : Type :=
| OpFailed (op : StoreOp)
| DuplicateKey
| DocumentNotFound
| UsernameExhausted.

Inductive LogLine : Type :=
| LogCreated (email : option string) (i : string)
| LogPromoted (email : option string)
| LogSignInError (error : Exn).

(** [users] is the collection in insertion order, [ops] the calls attempted
    so far (oldest first), [faults k] tells whether the call attempted when
    [k] calls precede it is rejected by the store or the network. *)
Record World : Type := {
  users : list UserDoc;
  ops : list StoreOp;
  console : list LogLine;
  faults : nat -> bool
}.

Inductive Outcome (A : Type) : Type :=
| Ok (a : A)
| Throw (e : Exn).
Arguments Ok {A} a.
Arguments Throw {A} e.

Definition Async (A : Type) : Type := World -> Outcome A * World.

Definition ret {A} (a : A) : Async A := fun w => (Ok a, w).

Definition bind {A B} (m : Async A) (k : A -> Async B) : Async B :=
  fun w =>
    match m w with
    | (Ok a, w') => k a w'
    | (Throw e, w') => (Throw e, w')
    end.

(** [try { body } catch (error) { handler }] *)
Definition try_catch {A} (body : Async A) (handler : Exn -> Async A) : Async A :=
  fun w =>
    match body w with
    | (Ok a, w') => (Ok a, w')
    | (Throw e, w') => handler e w'
    end.

Notation "'let*' x ':=' m 'in' k" := (bind m (fun x => k))
  (at level 10, x pattern, m at level 100, k at level 200).
Notation "m ';;' k" := (bind m (fun _ => k))
  (at level 100, k at level 200, right associativity).

Definition with_users (w : World) (us : list UserDoc) : World :=
  {| users := us; ops := ops w; console := console w; faults := faults w |}.

Definition with_op (w : World) (op : StoreOp) : World :=
  {| users := users w; ops := ops w ++ [op]; console := console w;
     faults := faults w |}.

Definition console_log (l : LogLine) : Async unit :=
  fun w => (Ok tt, {| users := users w; ops := ops w;
                      console := console w ++ [l]; faults := faults w |}).

(** One awaited call: it is recorded, then either rejected according to
    the fault schedule or carried out. *)
Definition await {A} (op : StoreOp) (run : Async A) : Async A :=
  fun w =>
    if faults w (length (ops w)) then (Throw (OpFailed op), with_op w op)
    else run (with_op w op).

(** Modelled from the spec: the User Store, "a document collection keyed
    by email", whose code (the [User] model and [connectDB]) is not in this
    file.  [findOne(email)] answers the first document with that email; a
    query for an absent email matches a document without one. *)
Definition find_by_email (q : option string) (l : list UserDoc) : option UserDoc :=
  List.find (fun d => bool_decide (email d = q)) l.

(** Modelled from the spec: [findById(id)] of the User Store.  Only a
    string can be the id of a document. *)
Definition find_by_id (i : JsVal) (l : list UserDoc) : option UserDoc :=
  match i with
  | VStr s => List.find (fun d => bool_decide (_id d = s)) l
  | _ => None
  end.

(** Modelled from the spec: "email and username are each globally unique",
    and so is the id; a new document clashes with one that shares any of
    the three. *)
Definition clashes (d x : UserDoc) : bool :=
  bool_decide (_id x = _id d) || bool_decide (email x = email d)
  || bool_decide (username x = username d).

(** Modelled from the spec: the update half of [save()], which writes the
    document over the one with its id, and finds none to write over when
    no document has that id. *)
Fixpoint replace_doc (d : UserDoc) (l : list UserDoc) : option (list UserDoc) :=
  match l with
  | [] => None
  | x :: l' =>
      if bool_decide (_id x = _id d) then Some (d :: l')
      else cons x <$> replace_doc d l'
  end.

(** Modelled from the spec: [connectDB()], awaited before the store is
    used. *)
Definition connectDB : Async unit := await ConnectDB (ret tt).

(** Modelled from the spec: [User.findOne({ email })]. *)
Definition User_findOne (q : option string) : Async (option UserDoc) :=
  await (FindOne q) (fun w => (Ok (find_by_email q (users w)), w)).

(** Modelled from the spec: [User.findById(id)]. *)
Definition User_findById (i : JsVal) : Async (option UserDoc) :=
  await (FindById i) (fun w => (Ok (find_by_id i (users w)), w)).

(** Modelled from the spec: [save()] of a document made by
    [new User(...)], an insert that the uniqueness constraints can
    refuse. *)
Definition save_new (d : UserDoc) : Async UserDoc :=
  await (Insert d)
    (fun w =>
       if existsb (clashes d) (users w) then (Throw DuplicateKey, w)
       else (Ok d, with_users w (users w ++ [d]))).

(** Modelled from the spec: [save()] of a document that was fetched from
    the collection, an update. *)
Definition save_fetched (d : UserDoc) : Async unit :=
  await (Update d)
    (fun w =>
       match replace_doc d (users w) with
       | Some us => (Ok tt, with_users w us)
       | None => (Throw DocumentNotFound, w)
       end).

(** ** The callbacks *)

(** What [.select('displayName username image rank roles isBanned').lean()]
    keeps of a document. *)
Module Lean.
Record t : Type := {
  displayName : option string;
  username : string;
  image : option string;
  rank : string;
  roles : option (list string);
  isBanned : bool
}.
End Lean.

Definition select_lean (d : UserDoc) : Lean.t :=
  {| Lean.displayName := displayName d; Lean.username := username d;
     Lean.image := image d; Lean.rank := rank d; Lean.roles := roles d;
     Lean.isBanned := isBanned d |}.

Definition provider_is (account : option Account) (p : string) : bool :=
  match account with
  | Some a => String.eqb (provider a) p
  | None => false
  end.

(** The Username Generator of [@/lib/auth/username], whose code is not in
    this file: [generateUsername] derives a candidate from the profile,
    [uniqueUsername] is the handle [ensureUniqueUsername] settles on for
    a collection and a candidate, or [None] when it gives up. *)
Class UsernameGenerator : Type := {
  generateUsername : Identity -> string;
  uniqueUsername : list UserDoc -> string -> option string
}.

Section Reconciler.

Context {JS : JsStrings} {UG : UsernameGenerator}.

Definition ensureUniqueUsername (base : string) : Async string :=
  await (EnsureUniqueUsername base)
    (fun w =>
       match uniqueUsername (users w) base with
       | Some u => (Ok u, w)
       | None => (Throw UsernameExhausted, w)
       end).

(** route.ts, lines 134-160 *)
Definition new_User (rt : Runtime) (user : Identity) (username : string) : UserDoc :=
  {| _id := newObjectId rt;
     email := toLowerCase <$> user_email user;
     displayName := user_name user;
     username := username;
     image := user_image user;
     vrHeadset := None;
     level := 1;
     rank := if isAdminEmail (env rt) (default "" (user_email user))
             then "elite" else "recruit";
     badges := [];
     stats := {| contributionPoints := 0; feedbackSubmitted := 0;
                 bugsReported := 0; featuresProposed := 0;
                 dataCorrections := 0; correctionsAccepted := 0 |};
     roles := Some (if isAdminEmail (env rt) (default "" (user_email user))
                    then ["user"; "admin"] else ["user"]);
     preferences := {| emailNotifications := false; publicProfile := true;
                       showContributions := true |};
     isActive := true;
     isBanned := false;
     lastLoginAt := now rt |}.

(** [user.email && isAdminEmail(user.email)] *)
Definition email_is_admin (rt : Runtime) (user : Identity) : bool :=
  match user_email user with
  | Some e => negb (String.eqb e "") && isAdminEmail (env rt) e
  | None => false
  end.

(** route.ts, lines 172-181: the allow-list is evaluated again for a
    document that exists. *)
Definition promote (rt : Runtime) (user : Identity) (dbUser : UserDoc)
    (needsUpdate : bool) : Async (UserDoc * bool) :=
  if email_is_admin rt user then
    if negb (has_admin (roles dbUser)) then
      let dbUser := set_roles dbUser (roles_or [] (roles dbUser) ++ ["admin"]) in
      let dbUser := set_rank dbUser "elite" in
      let needsUpdate := true in
      console_log (LogPromoted (user_email user)) ;;
      ret (dbUser, needsUpdate)
    else ret (dbUser, needsUpdate)
  else ret (dbUser, needsUpdate).

(** route.ts, lines 124-194: the body of the [try] block. *)
Definition reconcile (rt : Runtime) (user : Identity) : Async (bool * Identity) :=
  connectDB ;;
  let* dbUser := User_findOne (toLowerCase <$> user_email user) in
  match dbUser with
  | None =>
      let baseUsername := generateUsername user in
      let* username := ensureUniqueUsername baseUsername in
      let newUser := new_User rt user username in
      let* savedUser := save_new newUser in
      let user := set_id user (_id savedUser) in
      console_log (LogCreated (user_email user) (user_id user)) ;;
      ret (true, user)
  | Some dbUser =>
      let needsUpdate := false in
      let* (dbUser, needsUpdate) := promote rt user dbUser needsUpdate in
      let dbUser := set_lastLoginAt dbUser (now rt) in
      let needsUpdate := true in
      (if needsUpdate then save_fetched dbUser else ret tt) ;;
      let user := set_id user (_id dbUser) in
      ret (true, user)
  end.

(** route.ts, lines 121-201.  The callback answers with a boolean and may
    have assigned [user.id]; both are returned. *)
Definition signIn (rt : Runtime) (user : Identity) (account : option Account)
    : Async (bool * Identity) :=
  if provider_is account "discord" || provider_is account "google" then
    try_catch (reconcile rt user)
      (fun error =>
         console_log (LogSignInError error) ;;
         ret (false, user))
  else ret (true, user).

End Reconciler.

(** The arguments of the [jwt] callback.  [jwt_token] is always an object;
    the others may be absent. *)
Record JwtArgs : Type := {
  jwt_token : JsObject;
  jwt_user : option Identity;
  jwt_account : option Account;
  jwt_trigger : option string;
  jwt_session : option JsObject
}.

(** route.ts, lines 214-219 and 232-237: the six assignments from the
    fetched document, in the order written. *)
Definition assign_projection (token : JsObject) (dbUser : Lean.t) : JsObject :=
  let token := <["displayName" := of_string (Lean.displayName dbUser)]> token in
  let token := <["username" := VStr (Lean.username dbUser)]> token in
  let token := <["image" := of_string (Lean.image dbUser)]> token in
  let token := <["rank" := VStr (Lean.rank dbUser)]> token in
  let token := <["roles" := VStrs (roles_or ["user"] (Lean.roles dbUser))]> token in
  <["isBanned" := VBool (Lean.isBanned dbUser)]> token.

(** route.ts, lines 203-247 *)
Definition jwt (a : JwtArgs) : Async JsObject :=
  let token := jwt_token a in
  let* token :=
    match jwt_user a, jwt_account a with
    | Some user, Some _ =>
        connectDB ;;
        let* dbUser := User_findById (VStr (user_id user)) in
        match select_lean <$> dbUser with
        | Some dbUser =>
            let token := <["id" := VStr (user_id user)]> token in
            ret (assign_projection token dbUser)
        | None => ret token
        end
    | _, _ => ret token
    end in
  let* token :=
    if bool_decide (jwt_trigger a = Some "update") then
      connectDB ;;
      let* dbUser := User_findById (get token "id") in
      let token :=
        match select_lean <$> dbUser with
        | Some dbUser => assign_projection token dbUser
        | None => token
        end in
      let token :=
        match jwt_session a with
        | Some session => Object_assign token session
        | None => token
        end in
      ret token
    else ret token in
  ret token.

(** The outward session object: its [user] object, when there is one, and
    its remaining properties ([expires], ...). *)
Record Session : Type := {
  session_user : option JsObject;
  session_rest : JsObject
}.

(** route.ts, lines 253-259: the seven assignments, in the order written. *)
Definition copy_token (user token : JsObject) : JsObject :=
  let user := <["id" := get token "id"]> user in
  let user := <["username" := get token "username"]> user in
  let user := <["displayName" := get token "displayName"]> user in
  let user := <["image" := get token "image"]> user in
  let user := <["rank" := get token "rank"]> user in
  let user := <["roles" := get token "roles"]> user in
  <["isBanned" := get token "isBanned"]> user.

(** route.ts, lines 250-262.  It awaits nothing, so it is a function of its
    two arguments alone. *)
Definition session (session : option Session) (token : option JsObject)
    : option Session :=
  match session, token with
  | Some s, Some token =>
      match session_user s with
      | Some user =>
          Some {| session_user := Some (copy_token user token);
                  session_rest := session_rest s |}
      | None => session
      end
  | _, _ => session
  end.

(** ** Vocabulary of the statements *)

(** The properties of the token that [assign_projection] writes, and the
    properties of the session's user object that [copy_token] writes. *)
Definition projected_keys : list string :=
  ["displayName"; "username"; "image"; "rank"; "roles"; "isBanned"].

Definition session_keys : list string :=
  ["id"; "username"; "displayName"; "image"; "rank"; "roles"; "isBanned"].

(** The value [assign_projection] gives to a projected property. *)
Definition projection_of (dbUser : Lean.t) (k : string) : JsVal :=
  if String.eqb k "displayName" then of_string (Lean.displayName dbUser)
  else if String.eqb k "username" then VStr (Lean.username dbUser)
  else if String.eqb k "image" then of_string (Lean.image dbUser)
  else if String.eqb k "rank" then VStr (Lean.rank dbUser)
  else if String.eqb k "roles" then VStrs (roles_or ["user"] (Lean.roles dbUser))
  else VBool (Lean.isBanned dbUser).

(** How many times a role occurs in a role list. *)
Definition count_role (r : string) (l : list string) : nat :=
  length (List.filter (String.eqb r) l).

(** The role list of a document, an absent one read as empty. *)
Definition roles_of (d : UserDoc) : list string := roles_or [] (roles d).

(** The same document later: nothing taken from its roles, and not fallen
    from the rank ["elite"]. *)
Definition no_demotion (before after : UserDoc) : Prop :=
  _id after = _id before
  ∧ (∀ r, r ∈ roles_of before → r ∈ roles_of after)
  ∧ (rank before = "elite" → rank after = "elite").

(** The call that raised a given exception. *)
Definition raised_by (e : Exn) (op : StoreOp) : Prop :=
  e = OpFailed op
  ∨ (e = DuplicateKey ∧ ∃ d, op = Insert d)
  ∨ (e = DocumentNotFound ∧ ∃ d, op = Update d)
  ∨ (e = UsernameExhausted ∧ ∃ b, op = EnsureUniqueUsername b).

(** A document after the escalation of route.ts, lines 176-177. *)
Definition escalated (r : UserDoc) : UserDoc :=
  set_rank (set_roles r (roles_of r ++ ["admin"])) "elite".

(** A run that ended in an exception: the collection is as before, and the
    last call attempted is the one that raised, attempted once. *)
Definition failed_run (w : World) (e : Exn) (w' : World) : Prop :=
  users w' = users w ∧ faults w' = faults w
  ∧ ∃ pre op, ops w' = ops w ++ pre ++ [op] ∧ raised_by e op ∧ op ∉ pre.

(** A computation that, whenever it returns, met no fault on any call it
    attempted, and left the fault schedule alone. *)
Definition fault_free {A} (m : Async A) : Prop :=
  ∀ w a w', m w = (Ok a, w') →
    faults w' = faults w
    ∧ (length (ops w) ≤ length (ops w'))%nat
    ∧ ∀ k, (length (ops w) ≤ k < length (ops w'))%nat → faults w k = false.

(** The calls that write a document. *)
Definition is_save (op : StoreOp) : bool :=
  match op with
  | Insert _ | Update _ => true
  | _ => false
  end.

Definition default_preferences : Preferences :=
  {| emailNotifications := false; publicProfile := true;
     showContributions := true |}.

Definition zero_stats : Stats :=
  {| contributionPoints := 0; feedbackSubmitted := 0; bugsReported := 0;
     featuresProposed := 0; dataCorrections := 0; correctionsAccepted := 0 |}.

(** A collection in which ids, emails and usernames are each unique. *)
Definition store_ok (l : list UserDoc) : Prop :=
  NoDup (_id <$> l) ∧ NoDup (email <$> l) ∧ NoDup (username <$> l).

(** Two documents that differ at most in roles, rank and last login. *)
Definition same_profile (a b : UserDoc) : Prop :=
  _id b = _id a ∧ email b = email a ∧ displayName b = displayName a
  ∧ username b = username a ∧ image b = image a ∧ vrHeadset b = vrHeadset a
  ∧ level b = level a ∧ badges b = badges a ∧ stats b = stats a
  ∧ preferences b = preferences a ∧ isActive b = isActive a
  ∧ isBanned b = isBanned a.

(** The document the reconciler writes for a document it fetched. *)
Definition written (admin : bool) (r : UserDoc) (t : Z) : UserDoc :=
  set_lastLoginAt (if admin && negb (has_admin (roles r)) then escalated r else r) t.

(** A computation that leaves the collection, the console and the fault
    schedule as they are, whatever its outcome. *)
Definition read_only {A} (m : Async A) : Prop :=
  ∀ w, users (m w).2 = users w ∧ console (m w).2 = console w
       ∧ faults (m w).2 = faults w.

(** The same invocation of the [jwt] callback on another token. *)
Definition with_token (a : JwtArgs) (t : JsObject) : JwtArgs :=
  {| jwt_token := t; jwt_user := jwt_user a; jwt_account := jwt_account a;
     jwt_trigger := jwt_trigger a; jwt_session := jwt_session a |}.

(** ** Concrete collaborators and inputs, for running the callbacks *)

Module Demo.

Definition strings : JsStrings.
Proof.
  refine {| toLowerCase := ascii_toLowerCase |}.
  intros [| c s] Hs; [reflexivity | discriminate Hs].
Defined.

Definition usernames : UsernameGenerator :=
  {| generateUsername := fun u => default "user" (user_name u);
     uniqueUsername := fun l base =>
       if existsb (fun d => String.eqb (username d) base) l then None
       else Some base |}.

Definition isAdminEmail := @isAdminEmail strings.

Definition reconcile := @reconcile strings usernames.

Definition signIn := @signIn strings usernames.

Definition env0 : ProcessEnv :=
  {| ADMIN_EMAIL_1 := Some "Admin@X.com"; ADMIN_EMAIL_2 := None |}.

Definition rt (t : Z) (i : string) : Runtime :=
  {| env := env0; now := t; newObjectId := i |}.

Definition empty : World :=
  {| users := []; ops := []; console := []; faults := fun _ => false |}.

Definition discord : option Account := Some {| provider := "discord" |}.
Definition google : option Account := Some {| provider := "google" |}.

Definition ann : Identity :=
  {| user_id := "discord-1"; user_name := Some "Ann";
     user_email := Some "ADMIN@x.com"; user_image := None |}.

Definition bob : Identity :=
  {| user_id := "google-7"; user_name := Some "Bob";
     user_email := Some "Bob@x.com"; user_image := Some "bob.png" |}.

(** Bob's document as it stands before his address is put on the
    allow-list. *)
Definition bob_doc : UserDoc :=
  {| _id := "b0b"; email := Some "bob@x.com"; displayName := Some "Bob";
     username := "Bob"; image := Some "bob.png"; vrHeadset := None;
     level := 3; rank := "recruit"; badges := []; stats := zero_stats;
     roles := Some ["user"];
     preferences := default_preferences;
     isActive := true; isBanned := false; lastLoginAt := 10 |}.

Definition env_bob : ProcessEnv :=
  {| ADMIN_EMAIL_1 := None; ADMIN_EMAIL_2 := Some "BOB@x.com" |}.

Definition rt_bob (t : Z) : Runtime :=
  {| env := env_bob; now := t; newObjectId := "unused" |}.

Definition with_bob : World :=
  {| users := [bob_doc]; ops := []; console := []; faults := fun _ => false |}.

(** The worlds three sign-ins leave: Ann's first, then Bob's two after his
    address was put on the allow-list. *)
Definition ann_signed_in : World :=
  (signIn (rt 1000 "a11") ann discord empty).2.

Definition bob_promoted : World := (signIn (rt_bob 2000) bob google with_bob).2.

Definition bob_again : World := (signIn (rt_bob 3000) bob discord bob_promoted).2.

(** A store that rejects the second call made to it. *)
Definition flaky : World :=
  {| users := [bob_doc]; ops := []; console := [];
     faults := fun k => Nat.eqb k 1 |}.

Definition flaky_failed : World := (reconcile (rt 2000 "unused") bob flaky).2.

(** A token as NextAuth issued it for Bob, and a refresh of it with no
    session payload. *)
Definition bob_token : JsObject :=
  {[ "sub" := VStr "google-7"; "id" := VStr "b0b"; "exp" := VNum 99 ]}.

Definition refresh : JwtArgs :=
  {| jwt_token := bob_token; jwt_user := None; jwt_account := None;
     jwt_trigger := Some "update"; jwt_session := None |}.

(** The same refresh with a payload that renames the user. *)
Definition refresh_renaming : JwtArgs :=
  {| jwt_token := bob_token; jwt_user := None; jwt_account := None;
     jwt_trigger := Some "update";
     jwt_session := Some {[ "displayName" := VStr "Robert" ]} |}.

(** The first issuance for an identity whose id no document has. *)
Definition issuance_unknown : JwtArgs :=
  {| jwt_token := bob_token;
     jwt_user := Some {| user_id := "gone"; user_name := None;
                         user_email := None; user_image := None |};
     jwt_account := google; jwt_trigger := Some "signIn";
     jwt_session := None |}.

(** A refresh with a payload, for a token whose id no document has. *)
Definition refresh_unknown_renaming : JwtArgs :=
  {| jwt_token := {[ "id" := VStr "gone"; "rank" := VStr "elite" ]};
     jwt_user := None; jwt_account := None; jwt_trigger := Some "update";
     jwt_session := Some {[ "displayName" := VStr "Robert" ]} |}.

Definition refresh_unknown : JwtArgs :=
  {| jwt_token := {[ "id" := VStr "gone"; "rank" := VStr "elite" ]};
     jwt_user := None; jwt_account := None; jwt_trigger := Some "update";
     jwt_session := None |}.

(** A session as NextAuth builds it before the callback, and one without a
    user object. *)
Definition plain_session : Session :=
  {| session_user := Some {[ "name" := VStr "Bob"; "email" := VStr "bob@x.com" ]};
     session_rest := {[ "expires" := VStr "2026-01-01" ]} |}.

Definition userless_session : Session :=
  {| session_user := None;
     session_rest := {[ "expires" := VStr "2026-01-01" ]} |}.

Definition full_token : JsObject :=
  {[ "id" := VStr "b0b"; "username" := VStr "Bob"; "displayName" := VStr "Bob";
     "image" := VStr "bob.png"; "rank" := VStr "recruit";
     "roles" := VStrs ["user"]; "isBanned" := VBool false ]}.

(** A banned document with a stale profile, and the identity of its owner
    as the provider now reports it. *)
Definition mallory_doc : UserDoc :=
  {| _id := "bad"; email := Some "mallory@x.com"; displayName := Some "Mal";
     username := "Mal"; image := None; vrHeadset := None;
     level := 2; rank := "recruit"; badges := ["early"]; stats := zero_stats;
     roles := Some ["user"]; preferences := default_preferences;
     isActive := false; isBanned := true; lastLoginAt := 5 |}.

Definition mallory : Identity :=
  {| user_id := "discord-9"; user_name := Some "Mallory Renamed";
     user_email := Some "Mallory@X.com"; user_image := Some "new.png" |}.

Definition two_users : World :=
  {| users := [bob_doc; mallory_doc]; ops := []; console := [];
     faults := fun _ => false |}.

(** An identity without an email, and a provider the route does not
    reconcile. *)
Definition nameless : Identity :=
  {| user_id := "x-1"; user_name := None; user_email := None;
     user_image := None |}.

Definition github : option Account := Some {| provider := "github" |}.

(** A store that rejects every call. *)
Definition down : World :=
  {| users := [bob_doc]; ops := []; console := []; faults := fun _ => true |}.

(** A generator that never finds a free handle. *)
Definition exhausted : UsernameGenerator :=
  {| generateUsername := fun u => default "user" (user_name u);
     uniqueUsername := fun _ _ => None |}.

(** The first issuance for Bob after his sign-in, and an ordinary use of
    his token. *)
Definition issuance_bob : JwtArgs :=
  {| jwt_token := {[ "sub" := VStr "google-7"; "rank" := VStr "stale" ]};
     jwt_user := Some (set_id bob "b0b"); jwt_account := google;
     jwt_trigger := Some "signIn"; jwt_session := None |}.

Definition ordinary_use : JwtArgs :=
  {| jwt_token := bob_token; jwt_user := None; jwt_account := None;
     jwt_trigger := None; jwt_session := None |}.

End Demo.

(** * Properties *)

(** ** The allow-list *)

Section AllowListFacts.

Context {JS : JsStrings}.

Lemma includes_true {A} `{EqDecision A} (l : list A) (x : A) :
  includes l x = true ↔ x ∈ l.
Proof.
  unfold includes. rewrite existsb_exists. split.
  - intros (y & Hy & Heq). apply bool_decide_eq_true in Heq. subst.
    by apply list_elem_of_In.
  - intros Hx. exists x. split; [by apply list_elem_of_In |].
    by apply bool_decide_eq_true.
Qed.

Lemma truthy_Some (o : option string) :
  truthy o = true ↔ ∃ a, o = Some a ∧ a ≠ "".
Proof.
  destruct o as [a|]; simpl.
  - rewrite negb_true_iff, String.eqb_neq. split.
    + intros Hne. by exists a.
    + by intros (b & [= <-] & Hne).
  - split; [done | by intros (b & [=] & _)].
Qed.

Lemma isAdminEmail_true (env : ProcessEnv) (e : string) :
  isAdminEmail env e = true
  ↔ ∃ a, configured env a ∧ toLowerCase a = toLowerCase e.
Proof.
  unfold isAdminEmail, configured. rewrite includes_true.
  rewrite list_elem_of_fmap. split.
  - intros (o & Ho & Hin). apply list_elem_of_In, filter_In in Hin.
    destruct Hin as [Hin Ht]. apply truthy_Some in Ht as (a & -> & Hne).
    exists a. simpl in Ho. split; [| congruence].
    split; [| done]. simpl in Hin. destruct Hin as [Hin | [Hin | []]]; auto.
  - intros (a & [Hcfg Hne] & Hlow). exists (Some a). split.
    + simpl. by rewrite Hlow.
    + apply list_elem_of_In, filter_In. split.
      * simpl. destruct Hcfg as [-> | ->]; auto.
      * apply truthy_Some. eauto.
Qed.

(** C9: with neither allow-list entry configured no email is an admin
    email; in general an email is an admin email exactly when its
    lower-casing equals the lower-casing of a configured, non-empty
    entry. *)
Theorem isAdminEmail_case_insensitive (env : ProcessEnv) (e : string) :
  (ADMIN_EMAIL_1 env = None → ADMIN_EMAIL_2 env = None →
   isAdminEmail env e = false)
  ∧ (isAdminEmail env e = true
     ↔ ∃ a, (ADMIN_EMAIL_1 env = Some a ∨ ADMIN_EMAIL_2 env = Some a)
            ∧ a ≠ "" ∧ toLowerCase a = toLowerCase e).
Proof.
  split.
  - intros H1 H2. unfold isAdminEmail. by rewrite H1, H2.
  - rewrite isAdminEmail_true. unfold configured. split.
    + intros (a & [Hcfg Hne] & Hlow). eauto.
    + intros (a & Hcfg & Hne & Hlow). eauto.
Qed.

End AllowListFacts.

Example isAdminEmail_mixed_case :
  Demo.isAdminEmail Demo.env0 "aDMIN@x.COM" = true
  ∧ Demo.isAdminEmail Demo.env0 "root@x.com" = false
  ∧ Demo.isAdminEmail
      {| ADMIN_EMAIL_1 := Some ""; ADMIN_EMAIL_2 := None |} "" = false.
Proof. by vm_compute. Qed.

(** ** The store *)

Lemma find_by_email_Some q l r :
  find_by_email q l = Some r → r ∈ l ∧ email r = q.
Proof.
  unfold find_by_email. intros H. apply find_some in H as [Hin Heq].
  apply bool_decide_eq_true in Heq. split; [by apply list_elem_of_In | done].
Qed.

Lemma replace_doc_is_Some d l r :
  r ∈ l → _id r = _id d → is_Some (replace_doc d l).
Proof.
  induction l as [| x l IH]; intros Hin Hid.
  - by apply elem_of_nil in Hin.
  - simpl. case_bool_decide as Hx; [eauto |].
    apply elem_of_cons in Hin as [-> | Hin]; [done |].
    destruct (IH Hin Hid) as [l' ->]. simpl. eauto.
Qed.

(** After the update of a document that a query by email found, the same
    query finds the updated document. *)
Lemma find_by_email_replace q d l l' r :
  find_by_email q l = Some r → _id d = _id r → email d = email r →
  replace_doc d l = Some l' → find_by_email q l' = Some d.
Proof.
  intros Hfind Hid Hem. pose proof (find_by_email_Some _ _ _ Hfind) as [_ Hq].
  revert l' Hfind. induction l as [| x l IH]; intros l' Hfind Hrep; [done |].
  simpl in Hrep. unfold find_by_email in *. simpl in Hfind.
  case_bool_decide as Hx.
  - injection Hrep as <-. simpl. rewrite bool_decide_eq_true_2; [done | congruence].
  - case_bool_decide as Hex.
    + injection Hfind as ->. congruence.
    + destruct (replace_doc d l) as [l0|] eqn:Hl0; [| done].
      injection Hrep as <-. simpl. rewrite bool_decide_eq_false_2; [| done].
      by apply IH.
Qed.

Lemma replace_doc_length d l l' :
  replace_doc d l = Some l' → length l' = length l.
Proof.
  revert l'. induction l as [| x l IH]; intros l' H; [done |].
  simpl in H. case_bool_decide.
  - by injection H as <-.
  - destruct (replace_doc d l) as [l0|]; [| done]. injection H as <-.
    simpl. f_equal. by apply IH.
Qed.

(** ** The asynchronous steps *)

Lemma bind_await {A B} op (run : Async A) (k : A → Async B) w :
  bind (await op run) k w
  = if faults w (length (ops w)) then (Throw (OpFailed op), with_op w op)
    else bind run k (with_op w op).
Proof. unfold bind, await. by destruct (faults w (length (ops w))). Qed.

Lemma not_elem_of_distinct (op : StoreOp) (pre : list StoreOp) :
  Forall (λ x, x ≠ op) pre → op ∉ pre.
Proof.
  intros Hall Hin. rewrite Forall_forall in Hall.
  by apply (Hall op).
Qed.

(** Returning means that no call was rejected. *)
Lemma fault_free_ret {A} (a : A) : fault_free (ret a).
Proof. intros w a' w' [= <- <-]. repeat split; [lia | intros k Hk; lia]. Qed.

Lemma fault_free_console_log l : fault_free (console_log l).
Proof.
  intros w a' w' [= <- <-]. simpl. repeat split; [lia | intros k Hk; lia].
Qed.

Lemma fault_free_bind {A B} (m : Async A) (f : A → Async B) :
  fault_free m → (∀ a, fault_free (f a)) → fault_free (bind m f).
Proof.
  intros Hm Hf w b w' Hrun. unfold bind in Hrun.
  destruct (m w) as [[a | e] w1] eqn:Hmw; [| done].
  destruct (Hm _ _ _ Hmw) as (Hf1 & Hl1 & Hk1).
  destruct (Hf a _ _ _ Hrun) as (Hf2 & Hl2 & Hk2).
  split; [congruence |]. split; [lia |]. intros k Hk.
  destruct (decide (k < length (ops w1))) as [Hlt | Hge].
  - apply Hk1. lia.
  - rewrite <- Hf1. apply Hk2. lia.
Qed.

(** A call whose effect, once accepted, touches neither the list of calls
    nor the fault schedule. *)
Lemma fault_free_await {A} op (run : Async A) :
  (∀ w a w', run w = (Ok a, w') → ops w' = ops w ∧ faults w' = faults w) →
  fault_free (await op run).
Proof.
  intros Hrun w a w' Hw. unfold await in Hw.
  destruct (faults w (length (ops w))) eqn:F; [done |].
  destruct (Hrun _ _ _ Hw) as [Ho Hf]. rewrite Ho, Hf. simpl.
  rewrite length_app. simpl. repeat split; [lia |].
  intros k Hk. by replace k with (length (ops w)) by lia.
Qed.

(** ** Runs of the reconciler *)

Section ReconcilerFacts.

Context {JS : JsStrings} {UG : UsernameGenerator}.

Lemma promote_run rt user r b w :
  ∃ w', promote rt user r b w
        = (Ok (if email_is_admin rt user && negb (has_admin (roles r))
               then escalated r else r,
               if email_is_admin rt user && negb (has_admin (roles r))
               then true else b), w')
    ∧ users w' = users w ∧ ops w' = ops w ∧ faults w' = faults w.
Proof.
  unfold promote.
  destruct (email_is_admin rt user); simpl.
  - destruct (has_admin (roles r)); simpl; eauto.
  - eauto.
Qed.

Ltac failed_with pre op :=
  do 2 eexists; split; [reflexivity |]; left; eexists; split; [reflexivity |];
  split; [reflexivity |]; split; [reflexivity |];
  exists pre, op; cbn [ops with_op with_users]; rewrite <- ?app_assoc;
  split; [reflexivity |]; split;
  [ unfold raised_by; eauto 6
  | apply not_elem_of_distinct; repeat constructor; discriminate ].

Lemma reconcile_existing rt user w r :
  find_by_email (toLowerCase <$> user_email user) (users w) = Some r →
  let d := set_lastLoginAt
             (if email_is_admin rt user && negb (has_admin (roles r))
              then escalated r else r) (now rt) in
  ∃ res w', reconcile rt user w = (res, w') ∧
    ((∃ e, res = Throw e ∧ failed_run w e w')
     ∨ (res = Ok (true, set_id user (_id r))
        ∧ faults w' = faults w
        ∧ ops w' = ops w ++ [ConnectDB; FindOne (toLowerCase <$> user_email user);
                             Update d]
        ∧ replace_doc d (users w) = Some (users w'))).
Proof.
  intros Hfind d. pose proof (find_by_email_Some _ _ _ Hfind) as [Hin _].
  unfold reconcile, connectDB. rewrite bind_await.
  destruct (faults w (length (ops w))) eqn:F0.
  { failed_with (@nil StoreOp) ConnectDB. }
  unfold ret at 1. unfold bind at 1.
  unfold User_findOne. rewrite bind_await. cbn [faults with_op ops].
  destruct (faults w (length (ops w ++ [ConnectDB]))) eqn:F1.
  { failed_with [ConnectDB] (FindOne (toLowerCase <$> user_email user)). }
  unfold bind at 1. cbn [users with_op]. rewrite Hfind.
  unfold bind at 1.
  destruct (promote_run rt user r false
              (with_op (with_op w ConnectDB)
                 (FindOne (toLowerCase <$> user_email user))))
    as (w1 & -> & Hu & Ho & Hf).
  cbn [users ops faults with_op] in Hu, Ho, Hf.
  fold d. unfold save_fetched. rewrite bind_await. rewrite Hf, Ho.
  destruct (faults w (length ((ops w ++ [ConnectDB]) ++ [FindOne _]))) eqn:F2.
  { do 2 eexists; split; [reflexivity |]; left; eexists; split; [reflexivity |].
    split; [done |]. split; [done |].
    exists [ConnectDB; FindOne (toLowerCase <$> user_email user)], (Update d).
    cbn [ops with_op]. rewrite Ho, <- !app_assoc.
    split; [reflexivity |]. split; [by left |].
    apply not_elem_of_distinct; repeat constructor; discriminate. }
  unfold bind at 1. cbn [users with_op]. rewrite Hu.
  assert (Hid : _id r = _id d).
  { unfold d, escalated. by destruct (_ && _). }
  destruct (replace_doc_is_Some d (users w) r Hin Hid) as [us Hus].
  rewrite Hus. unfold ret. do 2 eexists. split; [reflexivity |]. right.
  cbn [faults ops users with_users with_op]. rewrite Hf, Ho, <- !app_assoc.
  by rewrite <- Hid.
Qed.

Lemma reconcile_new rt user w :
  find_by_email (toLowerCase <$> user_email user) (users w) = None →
  ∃ res w', reconcile rt user w = (res, w') ∧
    ((∃ e, res = Throw e ∧ failed_run w e w')
     ∨ (∃ un, uniqueUsername (users w) (generateUsername user) = Some un
          ∧ res = Ok (true, set_id user (newObjectId rt))
          ∧ faults w' = faults w
          ∧ ops w' = ops w ++ [ConnectDB; FindOne (toLowerCase <$> user_email user);
                               EnsureUniqueUsername (generateUsername user);
                               Insert (new_User rt user un)]
          ∧ existsb (clashes (new_User rt user un)) (users w) = false
          ∧ users w' = users w ++ [new_User rt user un])).
Proof.
  intros Hfind.
  unfold reconcile, connectDB. rewrite bind_await.
  destruct (faults w (length (ops w))) eqn:F0.
  { failed_with (@nil StoreOp) ConnectDB. }
  unfold ret at 1. unfold bind at 1.
  unfold User_findOne. rewrite bind_await. cbn [faults with_op ops].
  destruct (faults w (length (ops w ++ [ConnectDB]))) eqn:F1.
  { failed_with [ConnectDB] (FindOne (toLowerCase <$> user_email user)). }
  unfold bind at 1. cbn [users with_op]. rewrite Hfind.
  unfold ensureUniqueUsername. rewrite bind_await. cbn [faults with_op ops].
  destruct (faults w (length ((ops w ++ [ConnectDB]) ++ [FindOne _]))) eqn:F2.
  { failed_with [ConnectDB; FindOne (toLowerCase <$> user_email user)]
      (EnsureUniqueUsername (generateUsername user)). }
  unfold bind at 1. cbn [users with_op].
  destruct (uniqueUsername (users w) (generateUsername user)) as [un|] eqn:Hun.
  2:{ failed_with [ConnectDB; FindOne (toLowerCase <$> user_email user)]
        (EnsureUniqueUsername (generateUsername user)). }
  unfold save_new. rewrite bind_await. cbn [faults with_op ops].
  destruct (faults w (length (((ops w ++ [ConnectDB]) ++ [FindOne _])
                              ++ [EnsureUniqueUsername _]))) eqn:F3.
  { failed_with [ConnectDB; FindOne (toLowerCase <$> user_email user);
                 EnsureUniqueUsername (generateUsername user)]
      (Insert (new_User rt user un)). }
  unfold bind at 1. cbn [users with_op].
  destruct (existsb (clashes (new_User rt user un)) (users w)) eqn:Hclash.
  { failed_with [ConnectDB; FindOne (toLowerCase <$> user_email user);
                 EnsureUniqueUsername (generateUsername user)]
      (Insert (new_User rt user un)). }
  unfold bind, console_log, ret. do 2 eexists. split; [reflexivity |]. right.
  exists un. cbn [faults ops users with_users with_op]. rewrite <- !app_assoc.
  done.
Qed.

(** Returning means that no call of the reconciliation was rejected. *)
Lemma fault_free_connectDB : fault_free connectDB.
Proof. apply fault_free_await. by intros w a w' [= _ <-]. Qed.

Lemma fault_free_findOne q : fault_free (User_findOne q).
Proof. apply fault_free_await. by intros w a w' [= _ <-]. Qed.

Lemma fault_free_findById i : fault_free (User_findById i).
Proof. apply fault_free_await. by intros w a w' [= _ <-]. Qed.

Lemma fault_free_ensureUniqueUsername base :
  fault_free (ensureUniqueUsername base).
Proof.
  apply fault_free_await. intros w a w' Hw.
  destruct (uniqueUsername (users w) base); [| done]. by injection Hw as _ <-.
Qed.

Lemma fault_free_save_new d : fault_free (save_new d).
Proof.
  apply fault_free_await. intros w a w' Hw.
  destruct (existsb (clashes d) (users w)); [done |]. by injection Hw as _ <-.
Qed.

Lemma fault_free_save_fetched d : fault_free (save_fetched d).
Proof.
  apply fault_free_await. intros w a w' Hw.
  destruct (replace_doc d (users w)); [| done]. by injection Hw as _ <-.
Qed.

Lemma fault_free_promote rt user r b : fault_free (promote rt user r b).
Proof.
  unfold promote. destruct (email_is_admin rt user); [| apply fault_free_ret].
  destruct (has_admin (roles r)); simpl; [apply fault_free_ret |].
  apply fault_free_bind; [apply fault_free_console_log |].
  intros _. apply fault_free_ret.
Qed.

Lemma fault_free_reconcile rt user : fault_free (reconcile rt user).
Proof.
  unfold reconcile.
  apply fault_free_bind; [apply fault_free_connectDB | intros _].
  apply fault_free_bind; [apply fault_free_findOne | intros [r |]].
  - apply fault_free_bind; [apply fault_free_promote | intros [d b]].
    apply fault_free_bind; [apply fault_free_save_fetched | intros _].
    apply fault_free_ret.
  - apply fault_free_bind; [apply fault_free_ensureUniqueUsername | intros un].
    apply fault_free_bind; [apply fault_free_save_new | intros d].
    apply fault_free_bind; [apply fault_free_console_log | intros _].
    apply fault_free_ret.
Qed.

Lemma accepted_provider p :
  p = "discord" ∨ p = "google" →
  provider_is (Some {| provider := p |}) "discord"
  || provider_is (Some {| provider := p |}) "google" = true.
Proof. by intros [-> | ->]. Qed.

Lemma signIn_try rt user account w :
  provider_is account "discord" || provider_is account "google" = true →
  signIn rt user account w
  = match reconcile rt user w with
    | (Ok a, w') => (Ok a, w')
    | (Throw e, w') =>
        (Ok (false, user),
         {| users := users w'; ops := ops w';
            console := console w' ++ [LogSignInError e];
            faults := faults w' |})
    end.
Proof.
  intros Hacc. unfold signIn, try_catch. rewrite Hacc.
  by destruct (reconcile rt user w) as [[a | e] w'].
Qed.

(** A sign-in that answers [true] through an accepted provider is a run of
    the reconciler that returned. *)
Lemma signIn_true_reconcile rt user p w u' w' :
  p = "discord" ∨ p = "google" →
  signIn rt user (Some {| provider := p |}) w = (Ok (true, u'), w') →
  reconcile rt user w = (Ok (true, u'), w').
Proof.
  intros Hp. rewrite signIn_try by by apply accepted_provider.
  destruct (reconcile rt user w) as [[a | e] w1]; [| done].
  by intros [= -> ->].
Qed.

Lemma email_is_admin_Some rt user e :
  user_email user = Some e →
  email_is_admin rt user = isAdminEmail (env rt) e.
Proof.
  intros He. unfold email_is_admin. rewrite He.
  destruct (String.eqb_spec e "") as [-> | Hne]; [| done].
  simpl. symmetry. apply not_true_is_false. intros Hadm.
  apply isAdminEmail_true in Hadm as (a & [_ Hne] & Hlow).
  by apply toLowerCase_empty in Hlow.
Qed.

(** C1: for an email that no document of the collection carries, a sign-in
    through discord or google that answers [true] appends exactly one
    document: its email is the lower-cased email, its gamification and
    preference fields are the fixed defaults, and its rank and roles are
    ("elite", ["user"; "admin"]) when the email is an admin email and
    ("recruit", ["user"]) otherwise. *)
Theorem signIn_creates_user rt user p e w u' w' :
  p = "discord" ∨ p = "google" →
  user_email user = Some e →
  find_by_email (Some (toLowerCase e)) (users w) = None →
  signIn rt user (Some {| provider := p |}) w = (Ok (true, u'), w') →
  ∃ d, users w' = users w ++ [d]
    ∧ length (List.filter is_save (drop (length (ops w)) (ops w'))) = 1
    ∧ user_id u' = _id d
    ∧ email d = Some (toLowerCase e)
    ∧ level d = 1%Z ∧ stats d = zero_stats ∧ badges d = []
    ∧ preferences d = default_preferences
    ∧ isActive d = true ∧ isBanned d = false
    ∧ (rank d, roles d) = if isAdminEmail (env rt) e
                          then ("elite", Some ["user"; "admin"])
                          else ("recruit", Some ["user"]).
Proof.
  intros Hp He Hnew Hrun. apply signIn_true_reconcile in Hrun; [| done].
  destruct (reconcile_new rt user w) as (res & w1 & Hrec & Hcases).
  { by rewrite He. }
  rewrite Hrun in Hrec. injection Hrec as <- <-.
  destruct Hcases as [(x & [=] & _) | (un & Hun & [= ->] & Hf & Hops & Hcl & Hus)].
  exists (new_User rt user un). split; [done |].
  split. { rewrite Hops, drop_app_length. reflexivity. }
  split; [done |]. unfold new_User. cbn. rewrite He. cbn.
  repeat split. by destruct (isAdminEmail (env rt) e).
Qed.

(** The document an accepted, successful sign-in leaves for an email that
    had one. *)
Lemma signIn_existing_run rt user p e w r u' w' :
  p = "discord" ∨ p = "google" →
  user_email user = Some e →
  find_by_email (Some (toLowerCase e)) (users w) = Some r →
  signIn rt user (Some {| provider := p |}) w = (Ok (true, u'), w') →
  let d := set_lastLoginAt
             (if isAdminEmail (env rt) e && negb (has_admin (roles r))
              then escalated r else r) (now rt) in
  find_by_email (Some (toLowerCase e)) (users w') = Some d
  ∧ ops w' = ops w ++ [ConnectDB; FindOne (Some (toLowerCase e)); Update d]
  ∧ faults w' = faults w
  ∧ u' = set_id user (_id r).
Proof.
  intros Hp He Hfind Hrun d. apply signIn_true_reconcile in Hrun; [| done].
  destruct (reconcile_existing rt user w r) as (res & w1 & Hrec & Hcases).
  { by rewrite He. }
  rewrite Hrun in Hrec. injection Hrec as <- <-.
  rewrite (email_is_admin_Some _ _ _ He), He in Hcases. fold d in Hcases.
  destruct Hcases as [(x & [=] & _) | ([= ->] & Hf & Hops & Hrep)].
  repeat split; try done.
  apply (find_by_email_replace _ d (users w) _ r); try done.
  - unfold d, escalated. by destruct (_ && _).
  - unfold d, escalated. by destruct (_ && _).
Qed.

(** C2: for a document that exists, a successful sign-in through discord
    or google with an admin email appends "admin" to the roles and sets the
    rank to "elite" when the roles do not contain "admin", and leaves roles
    and rank as they are when they do. *)
Theorem signIn_promotes_admin_email rt user p e w r u' w' :
  p = "discord" ∨ p = "google" →
  user_email user = Some e →
  find_by_email (Some (toLowerCase e)) (users w) = Some r →
  isAdminEmail (env rt) e = true →
  signIn rt user (Some {| provider := p |}) w = (Ok (true, u'), w') →
  ∃ r', find_by_email (Some (toLowerCase e)) (users w') = Some r'
    ∧ _id r' = _id r
    ∧ (has_admin (roles r) = false →
       roles r' = Some (roles_of r ++ ["admin"]) ∧ rank r' = "elite")
    ∧ (has_admin (roles r) = true →
       roles r' = roles r ∧ rank r' = rank r).
Proof.
  intros Hp He Hfind Hadm Hrun.
  destruct (signIn_existing_run _ _ _ _ _ _ _ _ Hp He Hfind Hrun)
    as (Hfound & _). rewrite Hadm in Hfound. eexists. split; [exact Hfound |].
  destruct (has_admin (roles r)); simpl; repeat split; done.
Qed.

Lemma has_admin_elem r : has_admin (roles r) = true ↔ "admin" ∈ roles_of r.
Proof.
  unfold has_admin, roles_of, roles_or. destruct (roles r) as [l|]; simpl.
  - apply includes_true.
  - split; [done | by intros ?%elem_of_nil].
Qed.

Lemma count_role_absent x l : x ∉ l → count_role x l = 0.
Proof.
  unfold count_role. induction l as [| y l IH]; intros Hx; [done |].
  apply not_elem_of_cons in Hx as [Hne Hx]. simpl.
  destruct (String.eqb_spec x y); [done | by apply IH].
Qed.

Lemma count_role_NoDup x l : NoDup l → x ∈ l → count_role x l = 1.
Proof.
  unfold count_role. induction l as [| y l IH]; intros Hnd Hx.
  - by apply elem_of_nil in Hx.
  - apply NoDup_cons in Hnd as [Hy Hnd]. simpl.
    destruct (String.eqb_spec x y) as [-> | Hne].
    + simpl. f_equal. by apply count_role_absent.
    + apply elem_of_cons in Hx as [? | Hx]; [done | by apply IH].
Qed.

(** The document written for an admin email holds "admin" once, if the
    roles it started from had no duplicates. *)
Lemma escalation_keeps_NoDup r t :
  NoDup (roles_of r) →
  let d := set_lastLoginAt
             (if true && negb (has_admin (roles r)) then escalated r else r) t in
  _id d = _id r ∧ NoDup (roles_of d) ∧ has_admin (roles d) = true.
Proof.
  intros Hnd d. unfold d. destruct (has_admin (roles r)) eqn:Hadm; simpl.
  - repeat split; [done |]. apply has_admin_elem.
    by apply has_admin_elem in Hadm.
  - assert (Hnot : "admin" ∉ roles_of r).
    { intros Hin%has_admin_elem. congruence. }
    repeat split.
    + unfold roles_of at 1. simpl. apply NoDup_app. repeat split; [done | | ].
      * intros x Hx ->%list_elem_of_singleton. done.
      * apply NoDup_singleton.
    + apply includes_true, elem_of_app. right. by apply list_elem_of_singleton.
Qed.

(** C3: two successful sign-ins in succession with an admin email, for a
    document whose roles have no duplicates, leave roles that contain
    "admin" exactly once. *)
Theorem signIn_twice_single_admin rt1 rt2 user1 user2 p1 p2 e w r u1 w1 u2 w2 :
  p1 = "discord" ∨ p1 = "google" →
  p2 = "discord" ∨ p2 = "google" →
  user_email user1 = Some e →
  user_email user2 = Some e →
  find_by_email (Some (toLowerCase e)) (users w) = Some r →
  NoDup (roles_of r) →
  isAdminEmail (env rt1) e = true →
  isAdminEmail (env rt2) e = true →
  signIn rt1 user1 (Some {| provider := p1 |}) w = (Ok (true, u1), w1) →
  signIn rt2 user2 (Some {| provider := p2 |}) w1 = (Ok (true, u2), w2) →
  ∃ r2, find_by_email (Some (toLowerCase e)) (users w2) = Some r2
    ∧ _id r2 = _id r
    ∧ count_role "admin" (roles_of r2) = 1.
Proof.
  intros Hp1 Hp2 He1 He2 Hfind Hnd Hadm1 Hadm2 Hrun1 Hrun2.
  destruct (signIn_existing_run _ _ _ _ _ _ _ _ Hp1 He1 Hfind Hrun1)
    as (Hfound1 & _). rewrite Hadm1 in Hfound1.
  destruct (escalation_keeps_NoDup r (now rt1) Hnd) as (Hid1 & Hnd1 & Hhas1).
  destruct (signIn_existing_run _ _ _ _ _ _ _ _ Hp2 He2 Hfound1 Hrun2)
    as (Hfound2 & _). rewrite Hadm2, Hhas1 in Hfound2. simpl in Hfound2.
  eexists. split; [exact Hfound2 |]. split; [done |].
  apply count_role_NoDup; [done |]. by apply has_admin_elem.
Qed.

Lemma no_demotion_refl r : no_demotion r r.
Proof. by repeat split. Qed.

Lemma no_demotion_written r (b : bool) t :
  no_demotion r (set_lastLoginAt (if b then escalated r else r) t).
Proof.
  destruct b; [| by repeat split]. repeat split.
  intros x Hx. unfold roles_of at 1. simpl. apply elem_of_app. by left.
Qed.

Lemma reconcile_throw rt user w e w1 :
  reconcile rt user w = (Throw e, w1) → failed_run w e w1.
Proof.
  intros Hrun.
  destruct (find_by_email (toLowerCase <$> user_email user) (users w))
    as [r |] eqn:Hfind.
  - destruct (reconcile_existing rt user w r Hfind) as (res & w' & Hrec & Hc).
    rewrite Hrun in Hrec. injection Hrec as <- <-.
    by destruct Hc as [(x & [= <-] & Hfail) | ([=] & _)].
  - destruct (reconcile_new rt user w Hfind) as (res & w' & Hrec & Hc).
    rewrite Hrun in Hrec. injection Hrec as <- <-.
    by destruct Hc as [(x & [= <-] & Hfail) | (un & _ & [=] & _)].
Qed.

(** C4: whatever the outcome of the callback, the document it resolves for
    the email is found again afterwards with every role it had, and with
    the rank "elite" if it had it. *)
Theorem signIn_never_demotes rt user account w r :
  find_by_email (toLowerCase <$> user_email user) (users w) = Some r →
  ∃ r', find_by_email (toLowerCase <$> user_email user)
          (users (signIn rt user account w).2) = Some r'
    ∧ _id r' = _id r
    ∧ (∀ x, x ∈ roles_of r → x ∈ roles_of r')
    ∧ (rank r = "elite" → rank r' = "elite").
Proof.
  intros Hfind.
  destruct (provider_is account "discord" || provider_is account "google")
    eqn:Hacc.
  2:{ unfold signIn. rewrite Hacc. simpl. exists r. by repeat split. }
  rewrite signIn_try by done.
  destruct (reconcile_existing rt user w r Hfind) as (res & w' & -> & Hc).
  destruct Hc as [(e & -> & Hu & _) | (-> & _ & _ & Hrep)]; simpl.
  - rewrite Hu. exists r. by repeat split.
  - eexists. split.
    + apply (find_by_email_replace _ _ _ _ r Hfind); [| | exact Hrep];
        unfold escalated; by destruct (_ && _).
    + apply no_demotion_written.
Qed.

(** C5: a successful sign-in through discord or google for a document that
    exists sets its [lastLoginAt] to the current time and performs exactly
    one save, the update of that document, whether or not roles and rank
    changed. *)
Theorem signIn_refreshes_last_login rt user p e w r u' w' :
  p = "discord" ∨ p = "google" →
  user_email user = Some e →
  find_by_email (Some (toLowerCase e)) (users w) = Some r →
  signIn rt user (Some {| provider := p |}) w = (Ok (true, u'), w') →
  ∃ d, find_by_email (Some (toLowerCase e)) (users w') = Some d
    ∧ _id d = _id r
    ∧ lastLoginAt d = now rt
    ∧ ops w' = ops w ++ [ConnectDB; FindOne (Some (toLowerCase e)); Update d]
    ∧ List.filter is_save (drop (length (ops w)) (ops w')) = [Update d].
Proof.
  intros Hp He Hfind Hrun.
  destruct (signIn_existing_run _ _ _ _ _ _ _ _ Hp He Hfind Hrun)
    as (Hfound & Hops & _).
  eexists. split; [exact Hfound |]. split.
  { unfold escalated. by destruct (_ && _). }
  split; [done |]. split; [done |].
  by rewrite Hops, drop_app_length.
Qed.

(** C6: through discord or google the callback never lets an exception
    out; when a call of the reconciliation raises, the callback answers
    [false], the collection is as it was before the sign-in, and the call
    that raised is the last one attempted and was attempted once; and
    whenever the store rejects one of the calls the callback attempts, the
    answer is [false]. *)
Theorem signIn_refuses_on_store_error rt user p w :
  p = "discord" ∨ p = "google" →
  (∃ b u w', signIn rt user (Some {| provider := p |}) w = (Ok (b, u), w'))
  ∧ (∀ e w1, reconcile rt user w = (Throw e, w1) →
      ∃ w', signIn rt user (Some {| provider := p |}) w = (Ok (false, user), w')
        ∧ users w' = users w
        ∧ ops w' = ops w1
        ∧ console w' = console w1 ++ [LogSignInError e]
        ∧ ∃ pre op, ops w' = ops w ++ pre ++ [op]
            ∧ raised_by e op ∧ op ∉ pre)
  ∧ (∀ b u w' k,
      signIn rt user (Some {| provider := p |}) w = (Ok (b, u), w') →
      (length (ops w) ≤ k < length (ops w'))%nat →
      faults w k = true → b = false).
Proof.
  intros Hp. rewrite signIn_try by by apply accepted_provider.
  split; [| split].
  - destruct (reconcile rt user w) as [[[b u] | e] w1]; eauto.
  - intros e w1 Hrun. pose proof (reconcile_throw _ _ _ _ _ Hrun) as (Hu & _ & Hops).
    rewrite Hrun. eexists. split; [reflexivity |]. simpl. by repeat split.
  - intros b u w' k Hrun Hk Hfault.
    destruct (reconcile rt user w) as [[[b1 u1] | e] w1] eqn:Hrec.
    + injection Hrun as -> -> ->.
      destruct (fault_free_reconcile rt user _ _ _ Hrec) as (_ & _ & Hfree).
      rewrite Hfree in Hfault; done.
    + by injection Hrun as <- _ _.
Qed.

End ReconcilerFacts.

(** ** The reconciler on concrete sign-ins *)

Lemma signIn_creates_user_witness :
  find_by_email (Some (@toLowerCase Demo.strings "ADMIN@x.com"))
    (users Demo.empty) = None
  ∧ Demo.signIn (Demo.rt 1000 "a11") Demo.ann Demo.discord Demo.empty
    = (Ok (true, set_id Demo.ann "a11"), Demo.ann_signed_in)
  ∧ ∃ d, users Demo.ann_signed_in = users Demo.empty ++ [d]
    ∧ length (List.filter is_save
                (drop (length (ops Demo.empty)) (ops Demo.ann_signed_in))) = 1
    ∧ user_id (set_id Demo.ann "a11") = _id d
    ∧ email d = Some (@toLowerCase Demo.strings "ADMIN@x.com")
    ∧ level d = 1%Z ∧ stats d = zero_stats ∧ badges d = []
    ∧ preferences d = default_preferences
    ∧ isActive d = true ∧ isBanned d = false
    ∧ (rank d, roles d)
      = if @isAdminEmail Demo.strings (env (Demo.rt 1000 "a11")) "ADMIN@x.com"
        then ("elite", Some ["user"; "admin"])
        else ("recruit", Some ["user"]).
Proof.
  split; [reflexivity |]. split; [vm_compute; reflexivity |].
  apply (@signIn_creates_user Demo.strings Demo.usernames
           (Demo.rt 1000 "a11") Demo.ann "discord" "ADMIN@x.com" Demo.empty
           (set_id Demo.ann "a11") Demo.ann_signed_in).
  - left; reflexivity.
  - reflexivity.
  - reflexivity.
  - vm_compute; reflexivity.
Defined.

Lemma signIn_promotes_admin_email_witness :
  find_by_email (Some (@toLowerCase Demo.strings "Bob@x.com"))
    (users Demo.with_bob) = Some Demo.bob_doc
  ∧ @isAdminEmail Demo.strings (env (Demo.rt_bob 2000)) "Bob@x.com" = true
  ∧ ∃ r', find_by_email (Some (@toLowerCase Demo.strings "Bob@x.com"))
            (users Demo.bob_promoted) = Some r'
    ∧ _id r' = _id Demo.bob_doc
    ∧ (has_admin (roles Demo.bob_doc) = false →
       roles r' = Some (roles_of Demo.bob_doc ++ ["admin"]) ∧ rank r' = "elite")
    ∧ (has_admin (roles Demo.bob_doc) = true →
       roles r' = roles Demo.bob_doc ∧ rank r' = rank Demo.bob_doc).
Proof.
  split; [reflexivity |]. split; [reflexivity |].
  apply (@signIn_promotes_admin_email Demo.strings Demo.usernames
           (Demo.rt_bob 2000) Demo.bob "google" "Bob@x.com" Demo.with_bob
           Demo.bob_doc (set_id Demo.bob "b0b") Demo.bob_promoted).
  - right; reflexivity.
  - reflexivity.
  - reflexivity.
  - reflexivity.
  - vm_compute; reflexivity.
Defined.

Lemma signIn_twice_single_admin_witness :
  NoDup (roles_of Demo.bob_doc)
  ∧ Demo.signIn (Demo.rt_bob 2000) Demo.bob Demo.google Demo.with_bob
    = (Ok (true, set_id Demo.bob "b0b"), Demo.bob_promoted)
  ∧ Demo.signIn (Demo.rt_bob 3000) Demo.bob Demo.discord Demo.bob_promoted
    = (Ok (true, set_id Demo.bob "b0b"), Demo.bob_again)
  ∧ ∃ r2, find_by_email (Some (@toLowerCase Demo.strings "Bob@x.com"))
            (users Demo.bob_again) = Some r2
    ∧ _id r2 = _id Demo.bob_doc
    ∧ count_role "admin" (roles_of r2) = 1.
Proof.
  assert (Hnd : NoDup (roles_of Demo.bob_doc)).
  { apply NoDup_cons. split; [apply not_elem_of_nil | apply NoDup_nil_2]. }
  split; [exact Hnd |]. split; [vm_compute; reflexivity |].
  split; [vm_compute; reflexivity |].
  apply (@signIn_twice_single_admin Demo.strings Demo.usernames
           (Demo.rt_bob 2000) (Demo.rt_bob 3000) Demo.bob Demo.bob
           "google" "discord" "Bob@x.com" Demo.with_bob Demo.bob_doc
           (set_id Demo.bob "b0b") Demo.bob_promoted
           (set_id Demo.bob "b0b") Demo.bob_again).
  - right; reflexivity.
  - left; reflexivity.
  - reflexivity.
  - reflexivity.
  - reflexivity.
  - exact Hnd.
  - reflexivity.
  - reflexivity.
  - vm_compute; reflexivity.
  - vm_compute; reflexivity.
Defined.

Lemma signIn_never_demotes_witness :
  find_by_email (@toLowerCase Demo.strings <$> user_email Demo.bob)
    (users Demo.with_bob) = Some Demo.bob_doc
  ∧ ∃ r', find_by_email (@toLowerCase Demo.strings <$> user_email Demo.bob)
            (users (Demo.signIn (Demo.rt_bob 2000) Demo.bob Demo.google
                      Demo.with_bob).2) = Some r'
    ∧ _id r' = _id Demo.bob_doc
    ∧ (∀ x, x ∈ roles_of Demo.bob_doc → x ∈ roles_of r')
    ∧ (rank Demo.bob_doc = "elite" → rank r' = "elite").
Proof.
  split; [reflexivity |].
  apply (@signIn_never_demotes Demo.strings Demo.usernames
           (Demo.rt_bob 2000) Demo.bob Demo.google Demo.with_bob Demo.bob_doc).
  reflexivity.
Defined.

Lemma signIn_refreshes_last_login_witness :
  Demo.signIn (Demo.rt 2000 "unused") Demo.bob Demo.google Demo.with_bob
  = (Ok (true, set_id Demo.bob "b0b"),
     (Demo.signIn (Demo.rt 2000 "unused") Demo.bob Demo.google Demo.with_bob).2)
  ∧ ∃ d, find_by_email (Some (@toLowerCase Demo.strings "Bob@x.com"))
           (users (Demo.signIn (Demo.rt 2000 "unused") Demo.bob Demo.google
                     Demo.with_bob).2) = Some d
    ∧ _id d = _id Demo.bob_doc
    ∧ lastLoginAt d = now (Demo.rt 2000 "unused")
    ∧ ops (Demo.signIn (Demo.rt 2000 "unused") Demo.bob Demo.google
             Demo.with_bob).2
      = ops Demo.with_bob
        ++ [ConnectDB; FindOne (Some (@toLowerCase Demo.strings "Bob@x.com"));
            Update d]
    ∧ List.filter is_save
        (drop (length (ops Demo.with_bob))
           (ops (Demo.signIn (Demo.rt 2000 "unused") Demo.bob Demo.google
                   Demo.with_bob).2))
      = [Update d].
Proof.
  split; [vm_compute; reflexivity |].
  apply (@signIn_refreshes_last_login Demo.strings Demo.usernames
           (Demo.rt 2000 "unused") Demo.bob "google" "Bob@x.com" Demo.with_bob
           Demo.bob_doc (set_id Demo.bob "b0b")).
  - right; reflexivity.
  - reflexivity.
  - reflexivity.
  - vm_compute; reflexivity.
Defined.

Lemma signIn_refuses_on_store_error_witness :
  Demo.reconcile (Demo.rt 2000 "unused") Demo.bob Demo.flaky
  = (Throw (OpFailed (FindOne (Some "bob@x.com"))), Demo.flaky_failed)
  ∧ ∃ w', Demo.signIn (Demo.rt 2000 "unused") Demo.bob
            (Some {| provider := "discord" |}) Demo.flaky
          = (Ok (false, Demo.bob), w')
    ∧ users w' = users Demo.flaky
    ∧ ops w' = ops Demo.flaky_failed
    ∧ console w' = console Demo.flaky_failed
                   ++ [LogSignInError (OpFailed (FindOne (Some "bob@x.com")))]
    ∧ ∃ pre op, ops w' = ops Demo.flaky ++ pre ++ [op]
        ∧ raised_by (OpFailed (FindOne (Some "bob@x.com"))) op ∧ op ∉ pre.
Proof.
  assert (Hrun : Demo.reconcile (Demo.rt 2000 "unused") Demo.bob Demo.flaky
    = (Throw (OpFailed (FindOne (Some "bob@x.com"))), Demo.flaky_failed))
    by (vm_compute; reflexivity).
  split; [exact Hrun |].
  destruct (@signIn_refuses_on_store_error Demo.strings Demo.usernames
              (Demo.rt 2000 "unused") Demo.bob "discord" Demo.flaky
              (or_introl eq_refl)) as (_ & Hcatch & _).
  exact (Hcatch _ _ Hrun).
Defined.

(** ** The token projector *)

Lemma assign_projection_lookup token dbUser k :
  assign_projection token dbUser !! k
  = if bool_decide (k ∈ projected_keys) then Some (projection_of dbUser k)
    else token !! k.
Proof.
  unfold assign_projection.
  destruct (decide (k = "isBanned")) as [-> | H1]; [by rewrite lookup_insert_eq |].
  rewrite lookup_insert_ne by done.
  destruct (decide (k = "roles")) as [-> | H2]; [by rewrite lookup_insert_eq |].
  rewrite lookup_insert_ne by done.
  destruct (decide (k = "rank")) as [-> | H3]; [by rewrite lookup_insert_eq |].
  rewrite lookup_insert_ne by done.
  destruct (decide (k = "image")) as [-> | H4]; [by rewrite lookup_insert_eq |].
  rewrite lookup_insert_ne by done.
  destruct (decide (k = "username")) as [-> | H5]; [by rewrite lookup_insert_eq |].
  rewrite lookup_insert_ne by done.
  destruct (decide (k = "displayName")) as [-> | H6]; [by rewrite lookup_insert_eq |].
  rewrite lookup_insert_ne by done.
  rewrite bool_decide_eq_false_2; [done |].
  unfold projected_keys. rewrite !elem_of_cons, elem_of_nil. tauto.
Qed.

Lemma Object_assign_lookup (target source : JsObject) k :
  Object_assign target source !! k
  = match source !! k with
    | Some v => Some v
    | None => target !! k
    end.
Proof.
  unfold Object_assign. rewrite lookup_union.
  destruct (source !! k), (target !! k); done.
Qed.

(** A run of the callback when the trigger is "update", no identity
    accompanies it, and the store accepts the two calls. *)
Lemma jwt_refresh_run a w :
  jwt_trigger a = Some "update" →
  jwt_user a = None ∨ jwt_account a = None →
  faults w (length (ops w)) = false →
  faults w (S (length (ops w))) = false →
  let token := jwt_token a in
  let token1 :=
    match find_by_id (get token "id") (users w) with
    | Some d => assign_projection token (select_lean d)
    | None => token
    end in
  ∃ w', jwt a w
        = (Ok match jwt_session a with
              | Some s => Object_assign token1 s
              | None => token1
              end, w')
    ∧ users w' = users w
    ∧ ops w' = ops w ++ [ConnectDB; FindById (get token "id")].
Proof.
  intros Htr Hid F0 F1 token token1. unfold jwt. fold token.
  destruct (jwt_user a) as [u |], (jwt_account a) as [ac |];
    [by destruct Hid | | |].
  all: unfold ret at 1; unfold bind at 1; rewrite Htr.
  all: rewrite bool_decide_eq_true_2 by done.
  all: unfold bind at 1; unfold connectDB; rewrite bind_await, F0.
  all: unfold ret at 1; unfold bind at 1; unfold User_findById.
  all: rewrite bind_await; cbn [faults ops with_op];
    rewrite length_app; simpl length.
  all: rewrite Nat.add_1_r, F1; unfold bind, ret; cbn [users with_op].
  all: eexists; split;
    [ unfold token1; by destruct (find_by_id (get token "id") (users w))
    | split; [reflexivity | cbn [ops with_op]; by rewrite <- app_assoc] ].
Qed.

(** A run of the callback at the first issuance, when the store accepts
    the two calls. *)
Lemma jwt_issuance_run a w u ac :
  jwt_user a = Some u → jwt_account a = Some ac →
  jwt_trigger a ≠ Some "update" →
  faults w (length (ops w)) = false →
  faults w (S (length (ops w))) = false →
  ∃ w', jwt a w
        = (Ok match find_by_id (VStr (user_id u)) (users w) with
              | Some d =>
                  assign_projection (<["id" := VStr (user_id u)]> (jwt_token a))
                    (select_lean d)
              | None => jwt_token a
              end, w')
    ∧ users w' = users w
    ∧ ops w' = ops w ++ [ConnectDB; FindById (VStr (user_id u))].
Proof.
  intros Hu Hac Htr F0 F1. unfold jwt. rewrite Hu, Hac.
  rewrite (bool_decide_eq_false_2 _ Htr).
  unfold bind at 1. unfold connectDB. rewrite bind_await, F0.
  unfold ret at 1. unfold bind at 1. unfold User_findById.
  rewrite bind_await. cbn [faults ops with_op]. rewrite length_app. simpl length.
  rewrite Nat.add_1_r, F1. unfold bind at 1. cbn [users with_op].
  eexists. split.
  - unfold bind, ret.
    by destruct (find_by_id (VStr (user_id u)) (users w)).
  - split; [reflexivity | cbn [ops with_op]; by rewrite <- app_assoc].
Qed.

(** C7, as the code has it: on the trigger "update" with no identity
    arguments, the callback fetches the document by the id in the token;
    when there is one it overwrites the six projected properties and leaves
    every other property, the id among them, as it was, and when there is
    none it overwrites nothing; a session payload, whether or not there is
    a document, is then merged over the result, its value winning property
    by property. *)
Theorem jwt_refresh_overwrites_projection a w :
  jwt_trigger a = Some "update" →
  jwt_user a = None ∨ jwt_account a = None →
  faults w (length (ops w)) = false →
  faults w (S (length (ops w))) = false →
  let fetched k :=
    match find_by_id (get (jwt_token a) "id") (users w) with
    | Some d => if bool_decide (k ∈ projected_keys)
                then Some (projection_of (select_lean d) k)
                else jwt_token a !! k
    | None => jwt_token a !! k
    end in
  ∃ t' w', jwt a w = (Ok t', w')
    ∧ ops w' = ops w ++ [ConnectDB; FindById (get (jwt_token a) "id")]
    ∧ match jwt_session a with
      | None =>
          t' !! "id" = jwt_token a !! "id" ∧ ∀ k, t' !! k = fetched k
      | Some s =>
          ∀ k, t' !! k = match s !! k with
                         | Some v => Some v
                         | None => fetched k
                         end
      end.
Proof.
  intros Htr Hid F0 F1 fetched.
  destruct (jwt_refresh_run a w Htr Hid F0 F1) as (w' & Hrun & _ & Hops).
  do 2 eexists. split; [exact Hrun |]. split; [exact Hops |].
  assert (Hfetched : ∀ k,
    match find_by_id (get (jwt_token a) "id") (users w) with
    | Some d => assign_projection (jwt_token a) (select_lean d)
    | None => jwt_token a
    end !! k = fetched k).
  { intros k. unfold fetched.
    destruct (find_by_id (get (jwt_token a) "id") (users w)); [| done].
    apply assign_projection_lookup. }
  destruct (jwt_session a) as [s |].
  - intros k. by rewrite Object_assign_lookup, Hfetched.
  - split; [| exact Hfetched]. rewrite Hfetched. unfold fetched.
    by destruct (find_by_id (get (jwt_token a) "id") (users w)).
Qed.

(** C10: when the store accepts the calls and no document has the id looked
    up, the callback returns the token as it received it, at the first
    issuance as well as on a refresh without session payload. *)
Theorem jwt_absent_record_keeps_token a w :
  faults w (length (ops w)) = false →
  faults w (S (length (ops w))) = false →
  (∀ u ac, jwt_user a = Some u → jwt_account a = Some ac →
     jwt_trigger a ≠ Some "update" →
     find_by_id (VStr (user_id u)) (users w) = None →
     (jwt a w).1 = Ok (jwt_token a))
  ∧ (jwt_user a = None ∨ jwt_account a = None →
     jwt_trigger a = Some "update" → jwt_session a = None →
     find_by_id (get (jwt_token a) "id") (users w) = None →
     (jwt a w).1 = Ok (jwt_token a)).
Proof.
  intros F0 F1. split.
  - intros u ac Hu Hac Htr Hfind.
    destruct (jwt_issuance_run a w u ac Hu Hac Htr F0 F1) as (w' & -> & _).
    by rewrite Hfind.
  - intros Hid Htr Hs Hfind.
    destruct (jwt_refresh_run a w Htr Hid F0 F1) as (w' & -> & _).
    by rewrite Hfind, Hs.
Qed.

(** ** The session projection *)

Lemma copy_token_lookup user token k :
  copy_token user token !! k
  = if bool_decide (k ∈ session_keys) then Some (get token k) else user !! k.
Proof.
  unfold copy_token.
  destruct (decide (k = "isBanned")) as [-> | H1]; [by rewrite lookup_insert_eq |].
  rewrite lookup_insert_ne by done.
  destruct (decide (k = "roles")) as [-> | H2]; [by rewrite lookup_insert_eq |].
  rewrite lookup_insert_ne by done.
  destruct (decide (k = "rank")) as [-> | H3]; [by rewrite lookup_insert_eq |].
  rewrite lookup_insert_ne by done.
  destruct (decide (k = "image")) as [-> | H4]; [by rewrite lookup_insert_eq |].
  rewrite lookup_insert_ne by done.
  destruct (decide (k = "displayName")) as [-> | H5]; [by rewrite lookup_insert_eq |].
  rewrite lookup_insert_ne by done.
  destruct (decide (k = "username")) as [-> | H6]; [by rewrite lookup_insert_eq |].
  rewrite lookup_insert_ne by done.
  destruct (decide (k = "id")) as [-> | H7]; [by rewrite lookup_insert_eq |].
  rewrite lookup_insert_ne by done.
  rewrite bool_decide_eq_false_2; [done |].
  unfold session_keys. rewrite !elem_of_cons, elem_of_nil. tauto.
Qed.

(** C8, as the code has it: the callback is a function of the session and
    the token alone; for a session with a user object it sets each of the
    seven properties id, username, displayName, image, rank, roles and
    isBanned of that object to the token's and changes nothing else; a
    session without a user object is returned as it is. *)
Theorem session_copies_token (s : Session) (token : JsObject) :
  ∃ s', session (Some s) (Some token) = Some s'
    ∧ session_rest s' = session_rest s
    ∧ match session_user s with
      | Some user =>
          ∃ user', session_user s' = Some user'
            ∧ (∀ k, k ∈ session_keys → user' !! k = Some (get token k))
            ∧ (∀ k, k ∉ session_keys → user' !! k = user !! k)
      | None => s' = s
      end.
Proof.
  unfold session. destruct (session_user s) as [user |] eqn:Hu.
  - eexists. split; [reflexivity |]. split; [reflexivity |]. simpl.
    eexists. split; [reflexivity |]. split; intros k Hk.
    + rewrite copy_token_lookup. by rewrite bool_decide_eq_true_2.
    + rewrite copy_token_lookup. by rewrite bool_decide_eq_false_2.
  - by exists s.
Qed.

(** ** The projector on concrete tokens and sessions *)

Lemma covered_keys_length (keys cover : list string) :
  NoDup keys → (∀ k, k ∈ keys → k ∈ cover) → (length keys ≤ length cover)%nat.
Proof.
  intros Hnd Hin. apply submseteq_length. by apply NoDup_submseteq.
Qed.

Lemma NoDup_projected_keys : NoDup projected_keys.
Proof. apply (bool_decide_unpack _). by vm_compute. Qed.

Lemma NoDup_session_keys : NoDup session_keys.
Proof. apply (bool_decide_unpack _). by vm_compute. Qed.

(** C7 as stated fails: a refresh without payload changes six properties of
    Bob's token, so no five properties account for what it overwrites. *)
Lemma jwt_refresh_changes_six_properties :
  ∃ t', (jwt Demo.refresh Demo.with_bob).1 = Ok t'
    ∧ ¬ ∃ five : list string, length five = 5
          ∧ ∀ k, t' !! k ≠ jwt_token Demo.refresh !! k → k ∈ five.
Proof.
  exists (assign_projection Demo.bob_token (select_lean Demo.bob_doc)).
  split; [vm_compute; reflexivity |].
  intros (five & Hlen & Hcover).
  assert (Hle : (length projected_keys ≤ length five)%nat).
  { apply covered_keys_length; [apply NoDup_projected_keys |].
    intros k Hk. apply Hcover. unfold projected_keys in Hk.
    repeat (apply elem_of_cons in Hk as [-> | Hk]; [vm_compute; discriminate |]).
    by apply elem_of_nil in Hk. }
  rewrite Hlen in Hle. simpl in Hle. lia.
Qed.

Lemma jwt_refresh_overwrites_projection_witness :
  find_by_id (get (jwt_token Demo.refresh_renaming) "id") (users Demo.with_bob)
  = Some Demo.bob_doc
  ∧ find_by_id (get (jwt_token Demo.refresh_unknown_renaming) "id")
      (users Demo.with_bob) = None
  ∧ (∃ t' w', jwt Demo.refresh_renaming Demo.with_bob = (Ok t', w')
       ∧ ops w' = ops Demo.with_bob
                  ++ [ConnectDB;
                      FindById (get (jwt_token Demo.refresh_renaming) "id")]
       ∧ ∀ k, t' !! k
              = match ({[ "displayName" := VStr "Robert" ]} : JsObject) !! k with
                | Some v => Some v
                | None => if bool_decide (k ∈ projected_keys)
                          then Some (projection_of (select_lean Demo.bob_doc) k)
                          else jwt_token Demo.refresh_renaming !! k
                end)
  ∧ (∃ t' w', jwt Demo.refresh_unknown_renaming Demo.with_bob = (Ok t', w')
       ∧ ops w' = ops Demo.with_bob
                  ++ [ConnectDB;
                      FindById (get (jwt_token Demo.refresh_unknown_renaming) "id")]
       ∧ ∀ k, t' !! k
              = match ({[ "displayName" := VStr "Robert" ]} : JsObject) !! k with
                | Some v => Some v
                | None => jwt_token Demo.refresh_unknown_renaming !! k
                end).
Proof.
  split; [reflexivity |]. split; [reflexivity |]. split.
  - apply (jwt_refresh_overwrites_projection Demo.refresh_renaming
             Demo.with_bob).
    + reflexivity.
    + left; reflexivity.
    + reflexivity.
    + reflexivity.
  - apply (jwt_refresh_overwrites_projection Demo.refresh_unknown_renaming
             Demo.with_bob).
    + reflexivity.
    + left; reflexivity.
    + reflexivity.
    + reflexivity.
Defined.

Lemma jwt_absent_record_keeps_token_witness :
  find_by_id (VStr "gone") (users Demo.with_bob) = None
  ∧ (jwt Demo.issuance_unknown Demo.with_bob).1
    = Ok (jwt_token Demo.issuance_unknown)
  ∧ (jwt Demo.refresh_unknown Demo.with_bob).1
    = Ok (jwt_token Demo.refresh_unknown).
Proof.
  split; [reflexivity |]. split.
  - apply (proj1 (jwt_absent_record_keeps_token Demo.issuance_unknown
                    Demo.with_bob eq_refl eq_refl)
             {| user_id := "gone"; user_name := None; user_email := None;
                user_image := None |} {| provider := "google" |}).
    + reflexivity.
    + reflexivity.
    + discriminate.
    + reflexivity.
  - apply (proj2 (jwt_absent_record_keeps_token Demo.refresh_unknown
                    Demo.with_bob eq_refl eq_refl)).
    + left; reflexivity.
    + reflexivity.
    + reflexivity.
    + reflexivity.
Defined.

(** C8 as stated fails: for a session with a user object the callback
    changes seven properties of that object, so no six properties account
    for what it writes; and for a session without a user object it copies
    nothing. *)
Lemma session_changes_seven_properties :
  (∃ user user',
      session_user Demo.plain_session = Some user
      ∧ session_user <$> session (Some Demo.plain_session) (Some Demo.full_token)
        = Some (Some user')
      ∧ ¬ ∃ six : list string, length six = 6
            ∧ ∀ k, user' !! k ≠ user !! k → k ∈ six)
  ∧ session_user <$> session (Some Demo.userless_session) (Some Demo.full_token)
    = Some None.
Proof.
  split; [| reflexivity].
  eexists _, (copy_token _ Demo.full_token).
  split; [reflexivity |]. split; [reflexivity |].
  intros (six & Hlen & Hcover).
  assert (Hle : (length session_keys ≤ length six)%nat).
  { apply covered_keys_length; [apply NoDup_session_keys |].
    intros k Hk. apply Hcover. unfold session_keys in Hk.
    repeat (apply elem_of_cons in Hk as [-> | Hk]; [vm_compute; discriminate |]).
    by apply elem_of_nil in Hk. }
  rewrite Hlen in Hle. simpl in Hle. lia.
Qed.

Example session_copies_full_token :
  ∃ user', session_user <$> session (Some Demo.plain_session) (Some Demo.full_token)
           = Some (Some user')
    ∧ user' !! "id" = Some (VStr "b0b")
    ∧ user' !! "roles" = Some (VStrs ["user"])
    ∧ user' !! "email" = Some (VStr "bob@x.com").
Proof. eexists. split; [reflexivity |]. by vm_compute. Qed.

(** * Further properties of the route *)

(** ** More about the store *)

Lemma replace_doc_ids d l l' :
  replace_doc d l = Some l' → _id <$> l' = _id <$> l.
Proof.
  revert l'. induction l as [| x l IH]; intros l' H; [done |].
  simpl in H. case_bool_decide as Hx.
  - injection H as <-. simpl. by rewrite Hx.
  - destruct (replace_doc d l) as [l0 |]; [| done]. injection H as <-.
    simpl. f_equal. by apply IH.
Qed.

Lemma replace_doc_elem d l l' x :
  replace_doc d l = Some l' → x ∈ l' → x = d ∨ x ∈ l.
Proof.
  revert l'. induction l as [| y l IH]; intros l' H Hx; [done |].
  simpl in H. case_bool_decide as Hy.
  - injection H as <-. apply elem_of_cons in Hx as [-> | Hx]; [by left |].
    right. by apply elem_of_cons; right.
  - destruct (replace_doc d l) as [l0 |]; [| done]. injection H as <-.
    apply elem_of_cons in Hx as [-> | Hx].
    + right. by apply elem_of_cons; left.
    + destruct (IH l0 eq_refl Hx) as [-> | Hin]; [by left |].
      right. by apply elem_of_cons; right.
Qed.

Lemma replace_doc_lookup_ne d l l' i x :
  replace_doc d l = Some l' → l !! i = Some x → _id x ≠ _id d →
  l' !! i = Some x.
Proof.
  revert l' i. induction l as [| y l IH]; intros l' i H Hi Hne; [done |].
  simpl in H. case_bool_decide as Hy.
  - injection H as <-. destruct i as [| i]; [| done].
    injection Hi as ->. done.
  - destruct (replace_doc d l) as [l0 |]; [| done]. injection H as <-.
    destruct i as [| i]; [done |]. simpl in *. by apply IH.
Qed.

(** With unique ids, the document written over is the one that was
    fetched, so a field the two agree on reads the same over the whole
    collection. *)
Lemma replace_doc_field {B} (f : UserDoc → B) d l l' r :
  NoDup (_id <$> l) → r ∈ l → _id d = _id r → f d = f r →
  replace_doc d l = Some l' → f <$> l' = f <$> l.
Proof.
  intros Hnd Hin Hid Hf. revert l' Hnd Hin.
  induction l as [| x l IH]; intros l' Hnd Hin H; [done |].
  simpl in H. simpl in Hnd. apply NoDup_cons in Hnd as [Hx Hnd].
  case_bool_decide as Hxd.
  - injection H as <-. simpl. f_equal.
    apply elem_of_cons in Hin as [-> | Hin]; [done |].
    exfalso. apply Hx. rewrite Hxd, Hid. by apply list_elem_of_fmap_2.
  - destruct (replace_doc d l) as [l0 |]; [| done]. injection H as <-.
    simpl. f_equal. apply IH; [done | | done].
    apply elem_of_cons in Hin as [-> | Hin]; [by rewrite Hid in Hxd | done].
Qed.

Lemma find_by_id_replace d l l' :
  replace_doc d l = Some l' → find_by_id (VStr (_id d)) l' = Some d.
Proof.
  revert l'. induction l as [| x l IH]; intros l' H; [done |].
  simpl in H. case_bool_decide as Hx.
  - injection H as <-. simpl. by rewrite bool_decide_eq_true_2.
  - destruct (replace_doc d l) as [l0 |]; [| done]. injection H as <-.
    simpl. rewrite bool_decide_eq_false_2 by done. by apply IH.
Qed.

Lemma no_clash_spec d l :
  existsb (clashes d) l = false →
  (_id d ∉ _id <$> l) ∧ (email d ∉ email <$> l)
  ∧ (username d ∉ username <$> l).
Proof.
  intros H.
  assert (Hall : ∀ x, x ∈ l → clashes d x = false).
  { intros x Hx. destruct (clashes d x) eqn:Hc; [| done].
    rewrite <- H. symmetry. apply existsb_exists. exists x.
    split; [by apply list_elem_of_In | done]. }
  repeat split; intros (x & Heq & Hx)%list_elem_of_fmap;
    specialize (Hall x Hx); unfold clashes in Hall;
    apply orb_false_iff in Hall as [Hall H3];
    apply orb_false_iff in Hall as [H1 H2];
    apply bool_decide_eq_false in H1, H2, H3; congruence.
Qed.

Lemma find_by_id_new d l :
  (_id d ∉ _id <$> l) → find_by_id (VStr (_id d)) (l ++ [d]) = Some d.
Proof.
  intros Hnew. induction l as [| x l IH]; simpl.
  - by rewrite bool_decide_eq_true_2.
  - simpl in Hnew. apply not_elem_of_cons in Hnew as [Hne Hnew].
    rewrite bool_decide_eq_false_2 by done. by apply IH.
Qed.

(** ** More about the reconciler *)

Section ReconcilerMore.

Context {JS : JsStrings} {UG : UsernameGenerator}.

Lemma isAdminEmail_empty env : isAdminEmail env "" = false.
Proof.
  apply not_true_is_false. intros (a & [_ Hne] & Hlow)%isAdminEmail_true.
  by apply toLowerCase_empty in Hlow.
Qed.

Lemma email_is_admin_default rt user :
  email_is_admin rt user = isAdminEmail (env rt) (default "" (user_email user)).
Proof.
  destruct (user_email user) as [e |] eqn:He.
  - by apply email_is_admin_Some.
  - unfold email_is_admin. rewrite He. simpl. symmetry. apply isAdminEmail_empty.
Qed.

Ltac norm_len :=
  rewrite ?length_app; cbn [length]; rewrite ?Nat.add_1_r.

(** The reconciliation of an email that has a document, when the store
    accepts the three calls. *)
Lemma reconcile_existing_accepted rt user w r :
  find_by_email (toLowerCase <$> user_email user) (users w) = Some r →
  faults w (length (ops w)) = false →
  faults w (S (length (ops w))) = false →
  faults w (S (S (length (ops w)))) = false →
  ∃ w', reconcile rt user w = (Ok (true, set_id user (_id r)), w')
    ∧ replace_doc (written (email_is_admin rt user) r (now rt)) (users w)
      = Some (users w').
Proof.
  intros Hfind F0 F1 F2.
  destruct (reconcile_existing rt user w r Hfind) as (res & w' & Hrec & Hc).
  destruct Hc as [(e & -> & _) | (-> & _ & _ & Hrep)]; [| eauto].
  exfalso. revert Hrec. unfold reconcile, connectDB. rewrite bind_await, F0.
  unfold ret at 1. unfold bind at 1. unfold User_findOne.
  rewrite bind_await. cbn [faults with_op ops]. norm_len. rewrite F1.
  unfold bind at 1. cbn [users with_op]. rewrite Hfind. unfold bind at 1.
  destruct (promote_run rt user r false
              (with_op (with_op w ConnectDB)
                 (FindOne (toLowerCase <$> user_email user))))
    as (w1 & -> & Hu & Ho & Hf).
  cbn [users ops faults with_op] in Hu, Ho, Hf.
  unfold save_fetched. rewrite bind_await, Hf, Ho. norm_len. rewrite F2.
  unfold bind at 1. cbn [users with_op]. rewrite Hu.
  pose proof (find_by_email_Some _ _ _ Hfind) as [Hin _].
  destruct (replace_doc_is_Some
              (set_lastLoginAt
                 (if email_is_admin rt user && negb (has_admin (roles r))
                  then escalated r else r) (now rt)) (users w) r Hin)
    as [us ->]; [| done].
  unfold escalated. by destruct (_ && _).
Qed.

(** The reconciliation of an email without a document, up to the answer of
    the username generator, when the store accepts the calls. *)
Lemma reconcile_new_prefix rt user w :
  find_by_email (toLowerCase <$> user_email user) (users w) = None →
  faults w (length (ops w)) = false →
  faults w (S (length (ops w))) = false →
  faults w (S (S (length (ops w)))) = false →
  reconcile rt user w
  = match uniqueUsername (users w) (generateUsername user) with
    | Some un =>
        (let* savedUser := save_new (new_User rt user un) in
         let user := set_id user (_id savedUser) in
         console_log (LogCreated (user_email user) (user_id user)) ;;
         ret (true, user))
          (with_op (with_op (with_op w ConnectDB)
                      (FindOne (toLowerCase <$> user_email user)))
             (EnsureUniqueUsername (generateUsername user)))
    | None =>
        (Throw UsernameExhausted,
         with_op (with_op (with_op w ConnectDB)
                    (FindOne (toLowerCase <$> user_email user)))
           (EnsureUniqueUsername (generateUsername user)))
    end.
Proof.
  intros Hfind F0 F1 F2.
  unfold reconcile, connectDB. rewrite bind_await, F0.
  unfold ret at 1. unfold bind at 1. unfold User_findOne.
  rewrite bind_await. cbn [faults with_op ops]. norm_len. rewrite F1.
  unfold bind at 1. cbn [users with_op]. rewrite Hfind.
  unfold ensureUniqueUsername. rewrite bind_await.
  cbn [faults with_op ops]. norm_len. rewrite F2.
  unfold bind at 1. cbn [users with_op].
  by destruct (uniqueUsername (users w) (generateUsername user)).
Qed.

(** What the callback can have done to the collection, whatever its
    outcome: nothing, the update of the document it fetched, or the insert
    of a new one. *)
Lemma signIn_users_cases rt user account w :
  let w' := (signIn rt user account w).2 in
  users w' = users w
  ∨ (∃ r, find_by_email (toLowerCase <$> user_email user) (users w) = Some r
       ∧ replace_doc (written (email_is_admin rt user) r (now rt)) (users w)
         = Some (users w'))
  ∨ (∃ un, find_by_email (toLowerCase <$> user_email user) (users w) = None
       ∧ existsb (clashes (new_User rt user un)) (users w) = false
       ∧ users w' = users w ++ [new_User rt user un]).
Proof.
  intros w'. unfold w'.
  destruct (provider_is account "discord" || provider_is account "google")
    eqn:Hacc.
  2:{ left. unfold signIn. by rewrite Hacc. }
  rewrite signIn_try by done.
  destruct (find_by_email (toLowerCase <$> user_email user) (users w))
    as [r |] eqn:Hfind.
  - destruct (reconcile_existing rt user w r Hfind) as (res & w1 & -> & Hc).
    destruct Hc as [(e & -> & Hu & _) | (-> & _ & _ & Hrep)]; simpl.
    + by left.
    + right; left. eauto.
  - destruct (reconcile_new rt user w Hfind) as (res & w1 & -> & Hc).
    destruct Hc as [(e & -> & Hu & _) | (un & _ & -> & _ & _ & Hcl & Hus)]; simpl.
    + by left.
    + right; right. eauto.
Qed.

Lemma same_profile_written b r t : same_profile r (written b r t).
Proof.
  unfold written, same_profile, escalated.
  by destruct (b && negb (has_admin (roles r))).
Qed.

(** X1: a sign-in through a provider other than discord and google, or
    with no account, is let through: the answer is [true], no call is made,
    and neither the identity nor the world changes. *)
Theorem signIn_other_provider_passes rt user account w :
  (∀ p, account = Some {| provider := p |} → p ≠ "discord" ∧ p ≠ "google") →
  signIn rt user account w = (Ok (true, user), w).
Proof.
  intros Hp. unfold signIn.
  assert (provider_is account "discord" || provider_is account "google" = false)
    as ->; [| done].
  destruct account as [[p] |]; [| done]. simpl.
  destruct (Hp p eq_refl) as [Hd Hg].
  apply orb_false_iff. split; by apply String.eqb_neq.
Qed.

(** X2: when the store accepts the three calls, a sign-in through discord
    or google for an email that has a document answers [true] and sets
    [user.id] to the id of that document, whatever the document says: a
    banned or inactive account is not turned away. *)
Theorem signIn_existing_succeeds rt user p e w r :
  p = "discord" ∨ p = "google" →
  user_email user = Some e →
  find_by_email (Some (toLowerCase e)) (users w) = Some r →
  faults w (length (ops w)) = false →
  faults w (S (length (ops w))) = false →
  faults w (S (S (length (ops w)))) = false →
  ∃ w', signIn rt user (Some {| provider := p |}) w
        = (Ok (true, set_id user (_id r)), w')
    ∧ ∃ d, find_by_id (VStr (_id r)) (users w') = Some d
        ∧ isBanned d = isBanned r ∧ isActive d = isActive r.
Proof.
  intros Hp He Hfind F0 F1 F2.
  destruct (reconcile_existing_accepted rt user w r) as (w' & Hrun & Hrep);
    try done; [by rewrite He |].
  exists w'. rewrite signIn_try by by apply accepted_provider.
  rewrite Hrun. split; [done |]. eexists. split.
  - pose proof (find_by_id_replace _ _ _ Hrep) as Hf.
    destruct (same_profile_written (email_is_admin rt user) r (now rt))
      as (Hid & _). rewrite Hid in Hf. exact Hf.
  - by destruct (same_profile_written (email_is_admin rt user) r (now rt))
      as (_ & _ & _ & _ & _ & _ & _ & _ & _ & _ & Hact & Hban).
Qed.

Lemma no_clash_fresh rt user un l :
  find_by_email (toLowerCase <$> user_email user) l = None →
  (newObjectId rt ∉ _id <$> l) → (un ∉ username <$> l) →
  existsb (clashes (new_User rt user un)) l = false.
Proof.
  intros Hfind Hid Hun. apply not_true_is_false.
  intros (x & Hx & Hc)%existsb_exists. apply list_elem_of_In in Hx.
  unfold clashes in Hc. simpl in Hc.
  apply orb_true_iff in Hc as [Hc | Hc];
    [apply orb_true_iff in Hc as [Hc | Hc] |]; apply bool_decide_eq_true in Hc.
  - apply Hid. rewrite <- Hc. by apply list_elem_of_fmap_2.
  - unfold find_by_email in Hfind.
    pose proof (find_none _ _ Hfind x) as Hno. simpl in Hno.
    rewrite bool_decide_eq_true_2 in Hno by done.
    by specialize (Hno ltac:(by apply list_elem_of_In)).
  - apply Hun. rewrite <- Hc. by apply list_elem_of_fmap_2.
Qed.

(** X3: when the store accepts the four calls, the generator settles on a
    handle no document has, and the drawn id is new, a sign-in through
    discord or google for an email without a document answers [true],
    appends the new document, and sets [user.id] to its id, under which the
    store then finds it. *)
Theorem signIn_new_succeeds rt user p w un :
  p = "discord" ∨ p = "google" →
  find_by_email (toLowerCase <$> user_email user) (users w) = None →
  uniqueUsername (users w) (generateUsername user) = Some un →
  (newObjectId rt ∉ _id <$> users w) →
  (un ∉ username <$> users w) →
  (∀ k, (k < 4)%nat → faults w (length (ops w) + k) = false) →
  ∃ w', signIn rt user (Some {| provider := p |}) w
        = (Ok (true, set_id user (newObjectId rt)), w')
    ∧ users w' = users w ++ [new_User rt user un]
    ∧ find_by_id (VStr (newObjectId rt)) (users w') = Some (new_User rt user un)
    ∧ console w' = console w ++ [LogCreated (user_email user) (newObjectId rt)].
Proof.
  intros Hp Hfind Hun Hid Hname Hf.
  pose proof (Hf 0%nat ltac:(lia)) as F0. pose proof (Hf 1%nat ltac:(lia)) as F1.
  pose proof (Hf 2%nat ltac:(lia)) as F2. pose proof (Hf 3%nat ltac:(lia)) as F3.
  rewrite Nat.add_0_r in F0. rewrite Nat.add_1_r in F1.
  replace (length (ops w) + 2)%nat with (S (S (length (ops w)))) in F2 by lia.
  replace (length (ops w) + 3)%nat with (S (S (S (length (ops w))))) in F3 by lia.
  pose proof (no_clash_fresh rt user un _ Hfind Hid Hname) as Hcl.
  rewrite signIn_try by by apply accepted_provider.
  rewrite reconcile_new_prefix, Hun by done.
  unfold save_new. rewrite bind_await. cbn [faults with_op ops]. norm_len.
  rewrite F3. unfold bind at 1. cbn [users with_op]. rewrite Hcl.
  unfold bind, console_log, ret. eexists. split; [reflexivity |].
  cbn [users console with_users with_op]. repeat split.
  by apply (find_by_id_new (new_User rt user un)).
Qed.

(** X4: when the username generator finds no free handle, the sign-in is
    refused rather than failing: the callback answers [false], inserts
    nothing, stops after the generator, and logs the error. *)
Theorem signIn_username_exhausted_refused rt user p w :
  p = "discord" ∨ p = "google" →
  find_by_email (toLowerCase <$> user_email user) (users w) = None →
  uniqueUsername (users w) (generateUsername user) = None →
  faults w (length (ops w)) = false →
  faults w (S (length (ops w))) = false →
  faults w (S (S (length (ops w)))) = false →
  ∃ w', signIn rt user (Some {| provider := p |}) w = (Ok (false, user), w')
    ∧ users w' = users w
    ∧ ops w' = ops w ++ [ConnectDB; FindOne (toLowerCase <$> user_email user);
                         EnsureUniqueUsername (generateUsername user)]
    ∧ console w' = console w ++ [LogSignInError UsernameExhausted].
Proof.
  intros Hp Hfind Hun F0 F1 F2.
  rewrite signIn_try by by apply accepted_provider.
  rewrite reconcile_new_prefix, Hun by done.
  eexists. split; [reflexivity |]. cbn [users ops console with_op].
  by rewrite <- !app_assoc.
Qed.

(** X5: a sign-in that is refused has written nothing: the collection is
    as before and [user.id] is not assigned. *)
Theorem signIn_refusal_writes_nothing rt user account w u' w' :
  signIn rt user account w = (Ok (false, u'), w') →
  u' = user ∧ users w' = users w.
Proof.
  destruct (provider_is account "discord" || provider_is account "google")
    eqn:Hacc.
  2:{ unfold signIn. rewrite Hacc. by intros [=]. }
  rewrite signIn_try by done.
  destruct (find_by_email (toLowerCase <$> user_email user) (users w))
    as [r |] eqn:Hfind.
  - destruct (reconcile_existing rt user w r Hfind) as (res & w1 & -> & Hc).
    destruct Hc as [(e & -> & Hu & _) | (-> & _)]; [| by intros [=]].
    by intros [= <- <-].
  - destruct (reconcile_new rt user w Hfind) as (res & w1 & -> & Hc).
    destruct Hc as [(e & -> & Hu & _) | (un & _ & -> & _)]; [| by intros [=]].
    by intros [= <- <-].
Qed.

(** X6: whatever its outcome, the callback neither removes a document nor
    changes an id: the ids of the collection before are the ids of the
    collection after, with at most one more at the end. *)
Theorem signIn_keeps_ids rt user account w :
  let w' := (signIn rt user account w).2 in
  (_id <$> users w') = (_id <$> users w)
  ∨ ∃ i, (_id <$> users w') = (_id <$> users w) ++ [i] ∧ (i ∉ _id <$> users w).
Proof.
  intros w'. unfold w'. destruct (signIn_users_cases rt user account w)
    as [Hu | [(r & _ & Hrep) | (un & _ & Hcl & Hu)]].
  - left. by rewrite Hu.
  - left. by apply replace_doc_ids in Hrep.
  - right. exists (_id (new_User rt user un)).
    rewrite Hu, fmap_app. split; [done |]. by apply no_clash_spec in Hcl as [? _].
Qed.

(** X7: the callback hands out "admin" only through the allow-list: when
    the email of the identity (the empty string if it has none) is not an
    admin email, every document that holds "admin" after the callback,
    whatever its outcome, is a document that held it before, with the same
    roles and rank. *)
Theorem signIn_grants_admin_only_by_allow_list rt user account w d :
  isAdminEmail (env rt) (default "" (user_email user)) = false →
  d ∈ users (signIn rt user account w).2 →
  has_admin (roles d) = true →
  ∃ r, r ∈ users w ∧ _id r = _id d ∧ roles r = roles d ∧ rank r = rank d.
Proof.
  intros Hno Hd Hadm.
  destruct (signIn_users_cases rt user account w)
    as [Hu | [(r & Hfind & Hrep) | (un & _ & _ & Hu)]].
  - rewrite Hu in Hd. by exists d.
  - rewrite email_is_admin_default, Hno in Hrep.
    destruct (replace_doc_elem _ _ _ _ Hrep Hd) as [-> | Hin]; [| by exists d].
    exists r. split; [| done]. by apply find_by_email_Some in Hfind as [? _].
  - rewrite Hu in Hd. apply elem_of_app in Hd as [Hd | Hd]; [by exists d |].
    apply list_elem_of_singleton in Hd as ->. simpl in Hadm.
    by rewrite Hno in Hadm.
Qed.

(** X8: a successful sign-in for a document that exists changes at most
    its roles, rank and last login: the profile the provider reports (name
    and image) is not written back, and email, username, level, badges,
    statistics, preferences and the active and banned flags stay. *)
Theorem signIn_keeps_profile rt user p e w r u' w' :
  p = "discord" ∨ p = "google" →
  user_email user = Some e →
  find_by_email (Some (toLowerCase e)) (users w) = Some r →
  signIn rt user (Some {| provider := p |}) w = (Ok (true, u'), w') →
  ∃ d, find_by_email (Some (toLowerCase e)) (users w') = Some d
    ∧ same_profile r d.
Proof.
  intros Hp He Hfind Hrun.
  destruct (signIn_existing_run _ _ _ _ _ _ _ _ Hp He Hfind Hrun)
    as (Hfound & _).
  eexists. split; [exact Hfound |].
  apply (same_profile_written (isAdminEmail (env rt) e)).
Qed.

(** X9: a successful sign-in for a document that exists leaves every
    document with another id where and as it was. *)
Theorem signIn_leaves_other_documents rt user p e w r u' w' i x :
  p = "discord" ∨ p = "google" →
  user_email user = Some e →
  find_by_email (Some (toLowerCase e)) (users w) = Some r →
  signIn rt user (Some {| provider := p |}) w = (Ok (true, u'), w') →
  users w !! i = Some x → _id x ≠ _id r →
  users w' !! i = Some x ∧ length (users w') = length (users w).
Proof.
  intros Hp He Hfind Hrun Hi Hne.
  apply signIn_true_reconcile in Hrun; [| done].
  destruct (reconcile_existing rt user w r) as (res & w1 & Hrec & Hc);
    [by rewrite He |].
  rewrite Hrun in Hrec. injection Hrec as <- <-.
  destruct Hc as [(y & [=] & _) | (_ & _ & _ & Hrep)]. split.
  - apply (replace_doc_lookup_ne _ _ _ _ _ Hrep Hi).
    unfold escalated. by destruct (_ && _).
  - by apply replace_doc_length in Hrep.
Qed.

(** X10: the callback keeps the collection well-formed: if ids, emails and
    usernames are each unique before it runs, they are after, whatever its
    outcome. *)
Theorem signIn_keeps_store_ok rt user account w :
  store_ok (users w) → store_ok (users (signIn rt user account w).2).
Proof.
  intros (Hid & Hem & Hun).
  destruct (signIn_users_cases rt user account w)
    as [Hu | [(r & Hfind & Hrep) | (un & _ & Hcl & Hu)]].
  - by rewrite Hu.
  - apply find_by_email_Some in Hfind as [Hin _].
    destruct (same_profile_written (email_is_admin rt user) r (now rt))
      as (Hi & He & _ & Hn & _).
    unfold store_ok.
    rewrite (replace_doc_field _id _ _ _ r Hid Hin Hi Hi Hrep).
    rewrite (replace_doc_field email _ _ _ r Hid Hin Hi He Hrep).
    by rewrite (replace_doc_field username _ _ _ r Hid Hin Hi Hn Hrep).
  - apply no_clash_spec in Hcl as (Hi & He & Hn). rewrite Hu.
    unfold store_ok. rewrite !fmap_app. simpl.
    repeat split; apply NoDup_app; (split; [done |]);
      (split; [| apply NoDup_singleton]);
      by intros y Hy ->%list_elem_of_singleton.
Qed.

(** X11: an identity without an email, or with an empty one, is never
    treated as an administrator, whatever the allow-list holds: the test
    made for a new document and the guard of the promotion are both
    false. *)
Theorem signIn_without_email_is_not_admin rt user :
  user_email user = None ∨ user_email user = Some "" →
  isAdminEmail (env rt) (default "" (user_email user)) = false
  ∧ email_is_admin rt user = false
  ∧ ∀ un, rank (new_User rt user un) = "recruit"
          ∧ roles (new_User rt user un) = Some ["user"].
Proof.
  intros He.
  assert (Hno : isAdminEmail (env rt) (default "" (user_email user)) = false).
  { destruct He as [-> | ->]; apply isAdminEmail_empty. }
  split; [done |]. split; [by rewrite email_is_admin_default |].
  intros un. simpl. by rewrite Hno.
Qed.

End ReconcilerMore.

(** ** More about the token projector *)

Lemma read_only_ret {A} (a : A) : read_only (ret a).
Proof. by intros w. Qed.

Lemma read_only_bind {A B} (m : Async A) (f : A → Async B) :
  read_only m → (∀ a, read_only (f a)) → read_only (bind m f).
Proof.
  intros Hm Hf w. unfold bind. specialize (Hm w).
  destruct (m w) as [[a | e] w1]; [| done].
  simpl in Hm. destruct Hm as (Hu & Hc & Hfl).
  destruct (Hf a w1) as (Hu' & Hc' & Hf').
  by rewrite Hu', Hc', Hf'.
Qed.

Lemma read_only_await {A} op (run : Async A) :
  read_only run → read_only (await op run).
Proof.
  intros Hrun w. unfold await.
  destruct (faults w (length (ops w))); [done |].
  apply (Hrun (with_op w op)).
Qed.

Lemma read_only_jwt a : read_only (jwt a).
Proof.
  unfold jwt. apply read_only_bind.
  - destruct (jwt_user a) as [u |], (jwt_account a) as [ac |];
      try apply read_only_ret.
    apply read_only_bind; [by apply read_only_await | intros _].
    apply read_only_bind; [by apply read_only_await | intros [d |]];
      apply read_only_ret.
  - intros t. apply read_only_bind; [| intros ?; apply read_only_ret].
    case_bool_decide; [| apply read_only_ret].
    apply read_only_bind; [by apply read_only_await | intros _].
    apply read_only_bind; [by apply read_only_await | intros d].
    apply read_only_ret.
Qed.

Lemma fault_free_jwt a : fault_free (jwt a).
Proof.
  unfold jwt. apply fault_free_bind.
  - destruct (jwt_user a) as [u |], (jwt_account a) as [ac |];
      try apply fault_free_ret.
    apply fault_free_bind; [apply fault_free_connectDB | intros _].
    apply fault_free_bind; [apply fault_free_findById | intros [d |]];
      apply fault_free_ret.
  - intros t. apply fault_free_bind; [| intros ?; apply fault_free_ret].
    case_bool_decide; [| apply fault_free_ret].
    apply fault_free_bind; [apply fault_free_connectDB | intros _].
    apply fault_free_bind; [apply fault_free_findById | intros d].
    apply fault_free_ret.
Qed.

(** X12: on an ordinary use of a token (no identity and account together,
    no trigger "update") the callback returns the token as it is and makes
    no call to the store, whatever state the store is in. *)
Theorem jwt_passes_token_through a w :
  jwt_user a = None ∨ jwt_account a = None →
  jwt_trigger a ≠ Some "update" →
  jwt a w = (Ok (jwt_token a), w).
Proof.
  intros Hid Htr. unfold jwt. rewrite (bool_decide_eq_false_2 _ Htr).
  destruct (jwt_user a) as [u |], (jwt_account a) as [ac |];
    [by destruct Hid | done | done | done].
Qed.

(** X13: the callback never writes: whatever its arguments and its outcome,
    the collection and the console are as before. *)
Theorem jwt_never_writes a w :
  users (jwt a w).2 = users w ∧ console (jwt a w).2 = console w.
Proof.
  destruct (read_only_jwt a w) as (Hu & Hc & _).
  by split.
Qed.

(** X14: at the first issuance, when the store accepts the two calls and
    has a document under [user.id], the token gets that id and the six
    projected properties of the document, and keeps every other property
    it had. *)
Theorem jwt_issuance_projects a w u ac d :
  jwt_user a = Some u → jwt_account a = Some ac →
  jwt_trigger a ≠ Some "update" →
  faults w (length (ops w)) = false →
  faults w (S (length (ops w))) = false →
  find_by_id (VStr (user_id u)) (users w) = Some d →
  ∃ t' w', jwt a w = (Ok t', w')
    ∧ ops w' = ops w ++ [ConnectDB; FindById (VStr (user_id u))]
    ∧ t' !! "id" = Some (VStr (user_id u))
    ∧ ∀ k, k ≠ "id" →
        t' !! k = if bool_decide (k ∈ projected_keys)
                  then Some (projection_of (select_lean d) k)
                  else jwt_token a !! k.
Proof.
  intros Hu Hac Htr F0 F1 Hfind.
  destruct (jwt_issuance_run a w u ac Hu Hac Htr F0 F1) as (w' & Hrun & _ & Hops).
  rewrite Hfind in Hrun. do 2 eexists. split; [exact Hrun |].
  split; [exact Hops |]. split.
  - rewrite assign_projection_lookup. simpl. by rewrite lookup_insert_eq.
  - intros k Hk. rewrite assign_projection_lookup.
    case_bool_decide; [done |]. by rewrite lookup_insert_ne.
Qed.

(** X15: unlike the sign-in callback, this one catches nothing: when the
    store rejects a call it attempts, the callback throws and returns no
    token. *)
Theorem jwt_store_error_propagates a w k :
  (length (ops w) ≤ k < length (ops (jwt a w).2))%nat →
  faults w k = true →
  ∃ e, (jwt a w).1 = Throw e.
Proof.
  intros Hk Hfault. destruct (jwt a w) as [[t | e] w'] eqn:Hrun; [| eauto].
  destruct (fault_free_jwt a _ _ _ Hrun) as (_ & _ & Hfree).
  simpl in Hk. rewrite Hfree in Hfault; done.
Qed.

Lemma assign_projection_idem token dbUser :
  assign_projection (assign_projection token dbUser) dbUser
  = assign_projection token dbUser.
Proof.
  apply map_eq. intros k. rewrite !assign_projection_lookup.
  by case_bool_decide.
Qed.

Lemma get_assign_projection_id token dbUser :
  get (assign_projection token dbUser) "id" = get token "id".
Proof. unfold get. by rewrite assign_projection_lookup. Qed.

(** X16: refreshing is idempotent: when the store accepts the calls, a
    refresh without payload of the token a refresh without payload
    returned gives that token again. *)
Theorem jwt_refresh_idempotent a w :
  jwt_trigger a = Some "update" →
  jwt_user a = None ∨ jwt_account a = None →
  jwt_session a = None →
  (∀ k, (k < 4)%nat → faults w (length (ops w) + k) = false) →
  ∃ t w1 w2, jwt a w = (Ok t, w1)
    ∧ jwt (with_token a t) w1 = (Ok t, w2).
Proof.
  intros Htr Hid Hs Hf.
  pose proof (Hf 0%nat ltac:(lia)) as F0. pose proof (Hf 1%nat ltac:(lia)) as F1.
  pose proof (Hf 2%nat ltac:(lia)) as F2. pose proof (Hf 3%nat ltac:(lia)) as F3.
  rewrite Nat.add_0_r in F0. rewrite Nat.add_1_r in F1.
  destruct (jwt_refresh_run a w Htr Hid F0 F1) as (w1 & Hrun1 & Hu1 & Ho1).
  rewrite Hs in Hrun1.
  destruct (read_only_jwt a w) as (_ & _ & Hfl). rewrite Hrun1 in Hfl.
  simpl in Hfl.
  set (t := match find_by_id (get (jwt_token a) "id") (users w) with
            | Some d => assign_projection (jwt_token a) (select_lean d)
            | None => jwt_token a
            end) in *.
  destruct (jwt_refresh_run (with_token a t) w1 Htr Hid) as (w2 & Hrun2 & _).
  { rewrite Hfl, Ho1, length_app. exact F2. }
  { rewrite Hfl, Ho1, length_app. simpl.
    by replace (S (length (ops w) + 2)) with (length (ops w) + 3)%nat by lia. }
  do 3 eexists. split; [exact Hrun1 |]. rewrite Hrun2. f_equal. f_equal.
  simpl. rewrite Hs, Hu1. unfold t.
  destruct (find_by_id (get (jwt_token a) "id") (users w)) as [d |] eqn:Hfind.
  - by rewrite get_assign_projection_id, Hfind, assign_projection_idem.
  - by rewrite Hfind.
Qed.

(** ** More about the session projection *)

Lemma copy_token_idem user token :
  copy_token (copy_token user token) token = copy_token user token.
Proof.
  apply map_eq. intros k. rewrite !copy_token_lookup. by case_bool_decide.
Qed.

(** X17: projecting is idempotent: the callback applied to the session it
    returned, with the same token, returns that session again. *)
Theorem session_idempotent (s : option Session) (token : option JsObject) :
  session (session s token) token = session s token.
Proof.
  destruct s as [[[user |] rest] |], token as [token |]; try done.
  simpl. by rewrite copy_token_idem.
Qed.

(** ** From the sign-in to the session *)

Lemma find_by_email_new q d l :
  find_by_email q l = None → email d = q → find_by_email q (l ++ [d]) = Some d.
Proof.
  intros Hnone Hq. unfold find_by_email in *.
  induction l as [| x l IH]; simpl in *.
  - by rewrite bool_decide_eq_true_2.
  - destruct (bool_decide (email x = q)); [done | by apply IH].
Qed.

Lemma find_by_id_Some s l d :
  find_by_id (VStr s) l = Some d → _id d = s.
Proof.
  unfold find_by_id. intros H. apply find_some in H as [_ H].
  by apply bool_decide_eq_true in H.
Qed.

Section EndToEnd.

Context {JS : JsStrings} {UG : UsernameGenerator}.

(** The document a returned reconciliation leaves behind, as the email
    and as the id written to [user.id] resolve it. *)
Lemma reconcile_resolves rt user w u' w' :
  reconcile rt user w = (Ok (true, u'), w') →
  ∃ d, find_by_email (toLowerCase <$> user_email user) (users w') = Some d
    ∧ find_by_id (VStr (user_id u')) (users w') = Some d
    ∧ lastLoginAt d = now rt
    ∧ faults w' = faults w.
Proof.
  intros Hrun.
  destruct (find_by_email (toLowerCase <$> user_email user) (users w))
    as [r |] eqn:Hfind.
  - destruct (reconcile_existing rt user w r Hfind) as (res & w1 & Hrec & Hc).
    rewrite Hrun in Hrec. injection Hrec as <- <-.
    destruct Hc as [(y & [=] & _) | ([= ->] & Hf & _ & Hrep)].
    destruct (same_profile_written (email_is_admin rt user) r (now rt))
      as (Hid & Hem & _).
    eexists. split; [| split; [| split; [| exact Hf]]].
    + apply (find_by_email_replace _ _ _ _ r Hfind); [| | exact Hrep]; done.
    + simpl. rewrite <- Hid. exact (find_by_id_replace _ _ _ Hrep).
    + unfold escalated. by destruct (_ && _).
  - destruct (reconcile_new rt user w Hfind) as (res & w1 & Hrec & Hc).
    rewrite Hrun in Hrec. injection Hrec as <- <-.
    destruct Hc as [(y & [=] & _) | (un & _ & [= ->] & Hf & _ & Hcl & Hus)].
    exists (new_User rt user un). rewrite Hus.
    split; [| split; [| split; [done | exact Hf]]].
    + by apply find_by_email_new.
    + apply (find_by_id_new (new_User rt user un)).
      by apply no_clash_spec in Hcl as [? _].
Qed.

(** X18: after a sign-in through discord or google that answers [true],
    the id written to [user.id] resolves, by [findById], to the very
    document the email resolves to, and that document carries the time of
    this sign-in. *)
Theorem signIn_id_resolves rt user p w u' w' :
  p = "discord" ∨ p = "google" →
  signIn rt user (Some {| provider := p |}) w = (Ok (true, u'), w') →
  ∃ d, find_by_email (toLowerCase <$> user_email user) (users w') = Some d
    ∧ find_by_id (VStr (user_id u')) (users w') = Some d
    ∧ _id d = user_id u'
    ∧ lastLoginAt d = now rt.
Proof.
  intros Hp Hrun. apply signIn_true_reconcile in Hrun; [| done].
  destruct (reconcile_resolves rt user w u' w' Hrun) as (d & Hem & Hid & Ht & _).
  exists d. repeat split; try done. by apply find_by_id_Some in Hid.
Qed.

(** X19: a sign-in that answers [true], the first issuance of a token for
    the identity it returned, and the projection of that token into a
    session with a user object, with a store that accepts the calls: the
    session's user object ends with the id of the signed-in document and
    with the six projected properties of that document. *)
Theorem signIn_jwt_session_round_trip rt user p w u' w1 a ac s su :
  p = "discord" ∨ p = "google" →
  signIn rt user (Some {| provider := p |}) w = (Ok (true, u'), w1) →
  jwt_user a = Some u' → jwt_account a = Some ac →
  jwt_trigger a ≠ Some "update" →
  faults w1 (length (ops w1)) = false →
  faults w1 (S (length (ops w1))) = false →
  session_user s = Some su →
  ∃ d t w2 su',
    find_by_email (toLowerCase <$> user_email user) (users w1) = Some d
    ∧ jwt a w1 = (Ok t, w2)
    ∧ users w2 = users w1
    ∧ session_user <$> session (Some s) (Some t) = Some (Some su')
    ∧ su' !! "id" = Some (VStr (_id d))
    ∧ ∀ k, k ∈ projected_keys →
        su' !! k = Some (projection_of (select_lean d) k).
Proof.
  intros Hp Hrun Hu Hac Htr F0 F1 Hs.
  apply signIn_true_reconcile in Hrun; [| done].
  destruct (reconcile_resolves rt user w u' w1 Hrun) as (d & Hem & Hid & _ & _).
  destruct (jwt_issuance_run a w1 u' ac Hu Hac Htr F0 F1)
    as (w2 & Hjwt & Hus & _).
  rewrite Hid in Hjwt. pose proof (find_by_id_Some _ _ _ Hid) as Hd.
  exists d. do 3 eexists. split; [exact Hem |]. split; [exact Hjwt |].
  split; [exact Hus |]. unfold session. rewrite Hs. simpl.
  split; [reflexivity |]. split.
  - rewrite copy_token_lookup. simpl. unfold get.
    rewrite assign_projection_lookup. simpl.
    by rewrite lookup_insert_eq, Hd.
  - intros k Hk. rewrite copy_token_lookup.
    assert (Hin : k ∈ session_keys).
    { unfold projected_keys in Hk. unfold session_keys.
      rewrite !elem_of_cons in *. tauto. }
    rewrite (bool_decide_eq_true_2 _ Hin). unfold get.
    rewrite assign_projection_lookup. by rewrite (bool_decide_eq_true_2 _ Hk).
Qed.

End EndToEnd.

(** ** The further properties on concrete runs *)

Lemma signIn_other_provider_passes_witness :
  Demo.signIn (Demo.rt 1 "unused") Demo.nameless Demo.github Demo.down
  = (Ok (true, Demo.nameless), Demo.down)
  ∧ Demo.signIn (Demo.rt 1 "unused") Demo.nameless None Demo.down
    = (Ok (true, Demo.nameless), Demo.down).
Proof.
  split.
  - apply (@signIn_other_provider_passes Demo.strings Demo.usernames).
    intros p [= <-]. split; discriminate.
  - apply (@signIn_other_provider_passes Demo.strings Demo.usernames).
    intros p [=].
Defined.

Lemma signIn_existing_succeeds_witness :
  isBanned Demo.mallory_doc = true
  ∧ ∃ w', Demo.signIn (Demo.rt 2000 "unused") Demo.mallory
            (Some {| provider := "discord" |}) Demo.two_users
          = (Ok (true, set_id Demo.mallory (_id Demo.mallory_doc)), w')
    ∧ ∃ d, find_by_id (VStr (_id Demo.mallory_doc)) (users w') = Some d
        ∧ isBanned d = isBanned Demo.mallory_doc
        ∧ isActive d = isActive Demo.mallory_doc.
Proof.
  split; [reflexivity |].
  apply (@signIn_existing_succeeds Demo.strings Demo.usernames
           (Demo.rt 2000 "unused") Demo.mallory "discord" "Mallory@X.com"
           Demo.two_users Demo.mallory_doc).
  - left; reflexivity.
  - reflexivity.
  - reflexivity.
  - reflexivity.
  - reflexivity.
  - reflexivity.
Defined.

Lemma signIn_new_succeeds_witness :
  ∃ w', Demo.signIn (Demo.rt 1000 "a11") Demo.ann
          (Some {| provider := "google" |}) Demo.with_bob
        = (Ok (true, set_id Demo.ann "a11"), w')
    ∧ users w' = users Demo.with_bob
                 ++ [@new_User Demo.strings (Demo.rt 1000 "a11") Demo.ann "Ann"]
    ∧ find_by_id (VStr "a11") (users w')
      = Some (@new_User Demo.strings (Demo.rt 1000 "a11") Demo.ann "Ann")
    ∧ console w' = console Demo.with_bob
                   ++ [LogCreated (user_email Demo.ann) "a11"].
Proof.
  apply (@signIn_new_succeeds Demo.strings Demo.usernames
           (Demo.rt 1000 "a11") Demo.ann "google" Demo.with_bob "Ann").
  - right; reflexivity.
  - reflexivity.
  - reflexivity.
  - apply (bool_decide_unpack _). by vm_compute.
  - apply (bool_decide_unpack _). by vm_compute.
  - intros k _. reflexivity.
Defined.

Lemma signIn_username_exhausted_refused_witness :
  ∃ w', @signIn Demo.strings Demo.exhausted (Demo.rt 1000 "a11") Demo.ann
          (Some {| provider := "discord" |}) Demo.with_bob
        = (Ok (false, Demo.ann), w')
    ∧ users w' = users Demo.with_bob
    ∧ ops w' = ops Demo.with_bob
               ++ [ConnectDB;
                   FindOne (@toLowerCase Demo.strings <$> user_email Demo.ann);
                   EnsureUniqueUsername
                     (@generateUsername Demo.exhausted Demo.ann)]
    ∧ console w' = console Demo.with_bob ++ [LogSignInError UsernameExhausted].
Proof.
  apply (@signIn_username_exhausted_refused Demo.strings Demo.exhausted
           (Demo.rt 1000 "a11") Demo.ann "discord" Demo.with_bob).
  - left; reflexivity.
  - reflexivity.
  - reflexivity.
  - reflexivity.
  - reflexivity.
  - reflexivity.
Defined.

Lemma signIn_refusal_writes_nothing_witness :
  Demo.signIn (Demo.rt 2000 "unused") Demo.bob Demo.discord Demo.flaky
  = (Ok (false, Demo.bob),
     (Demo.signIn (Demo.rt 2000 "unused") Demo.bob Demo.discord Demo.flaky).2)
  ∧ Demo.bob = Demo.bob
  ∧ users (Demo.signIn (Demo.rt 2000 "unused") Demo.bob Demo.discord
             Demo.flaky).2 = users Demo.flaky.
Proof.
  assert (Hrun : Demo.signIn (Demo.rt 2000 "unused") Demo.bob Demo.discord
                   Demo.flaky
    = (Ok (false, Demo.bob),
       (Demo.signIn (Demo.rt 2000 "unused") Demo.bob Demo.discord Demo.flaky).2))
    by (vm_compute; reflexivity).
  split; [exact Hrun |].
  exact (@signIn_refusal_writes_nothing Demo.strings Demo.usernames
           _ _ _ _ _ _ Hrun).
Defined.

Lemma signIn_grants_admin_only_by_allow_list_witness :
  @isAdminEmail Demo.strings (env (Demo.rt 2000 "b22"))
    (default "" (user_email Demo.bob)) = false
  ∧ ∃ r, r ∈ users Demo.ann_signed_in
      ∧ _id r = "a11" ∧ roles r = Some ["user"; "admin"] ∧ rank r = "elite".
Proof.
  split; [reflexivity |].
  apply (@signIn_grants_admin_only_by_allow_list Demo.strings Demo.usernames
           (Demo.rt 2000 "b22") Demo.bob Demo.google Demo.ann_signed_in
           (@new_User Demo.strings (Demo.rt 1000 "a11") Demo.ann "Ann")).
  - reflexivity.
  - apply (bool_decide_unpack _). by vm_compute.
  - reflexivity.
Defined.

Lemma signIn_keeps_profile_witness :
  user_name Demo.mallory = Some "Mallory Renamed"
  ∧ ∃ d, find_by_email (Some (@toLowerCase Demo.strings "Mallory@X.com"))
           (users (Demo.signIn (Demo.rt 2000 "unused") Demo.mallory
                     Demo.discord Demo.two_users).2) = Some d
    ∧ same_profile Demo.mallory_doc d.
Proof.
  split; [reflexivity |].
  apply (@signIn_keeps_profile Demo.strings Demo.usernames
           (Demo.rt 2000 "unused") Demo.mallory "discord" "Mallory@X.com"
           Demo.two_users Demo.mallory_doc (set_id Demo.mallory "bad")).
  - left; reflexivity.
  - reflexivity.
  - reflexivity.
  - vm_compute; reflexivity.
Defined.

Lemma signIn_leaves_other_documents_witness :
  users (Demo.signIn (Demo.rt 2000 "unused") Demo.mallory Demo.discord
           Demo.two_users).2 !! 0%nat = Some Demo.bob_doc
  ∧ length (users (Demo.signIn (Demo.rt 2000 "unused") Demo.mallory
                     Demo.discord Demo.two_users).2)
    = length (users Demo.two_users).
Proof.
  apply (@signIn_leaves_other_documents Demo.strings Demo.usernames
           (Demo.rt 2000 "unused") Demo.mallory "discord" "Mallory@X.com"
           Demo.two_users Demo.mallory_doc (set_id Demo.mallory "bad")).
  - left; reflexivity.
  - reflexivity.
  - reflexivity.
  - vm_compute; reflexivity.
  - reflexivity.
  - discriminate.
Defined.

Lemma signIn_keeps_store_ok_witness :
  store_ok (users Demo.two_users)
  ∧ store_ok (users (Demo.signIn (Demo.rt 1000 "a11") Demo.ann Demo.google
                       Demo.two_users).2).
Proof.
  assert (Hok : store_ok (users Demo.two_users)).
  { repeat split; apply (bool_decide_unpack _); by vm_compute. }
  split; [exact Hok |].
  exact (@signIn_keeps_store_ok Demo.strings Demo.usernames
           (Demo.rt 1000 "a11") Demo.ann Demo.google Demo.two_users Hok).
Defined.

Lemma signIn_without_email_is_not_admin_witness :
  @isAdminEmail Demo.strings
    (env {| env := {| ADMIN_EMAIL_1 := Some ""; ADMIN_EMAIL_2 := None |};
            now := 1; newObjectId := "n1" |})
    (default "" (user_email Demo.nameless)) = false
  ∧ @email_is_admin Demo.strings
      {| env := {| ADMIN_EMAIL_1 := Some ""; ADMIN_EMAIL_2 := None |};
         now := 1; newObjectId := "n1" |} Demo.nameless = false
  ∧ ∀ un,
      rank (@new_User Demo.strings
              {| env := {| ADMIN_EMAIL_1 := Some ""; ADMIN_EMAIL_2 := None |};
                 now := 1; newObjectId := "n1" |} Demo.nameless un) = "recruit"
      ∧ roles (@new_User Demo.strings
                 {| env := {| ADMIN_EMAIL_1 := Some ""; ADMIN_EMAIL_2 := None |};
                    now := 1; newObjectId := "n1" |} Demo.nameless un)
        = Some ["user"].
Proof.
  apply (@signIn_without_email_is_not_admin Demo.strings).
  left; reflexivity.
Defined.

Lemma jwt_passes_token_through_witness :
  jwt Demo.ordinary_use Demo.down = (Ok (jwt_token Demo.ordinary_use), Demo.down).
Proof.
  apply jwt_passes_token_through; [left; reflexivity | discriminate].
Defined.

Lemma jwt_issuance_projects_witness :
  ∃ t' w', jwt Demo.issuance_bob Demo.with_bob = (Ok t', w')
    ∧ ops w' = ops Demo.with_bob ++ [ConnectDB; FindById (VStr "b0b")]
    ∧ t' !! "id" = Some (VStr "b0b")
    ∧ ∀ k, k ≠ "id" →
        t' !! k = if bool_decide (k ∈ projected_keys)
                  then Some (projection_of (select_lean Demo.bob_doc) k)
                  else jwt_token Demo.issuance_bob !! k.
Proof.
  apply (jwt_issuance_projects Demo.issuance_bob Demo.with_bob
           (set_id Demo.bob "b0b") {| provider := "google" |} Demo.bob_doc).
  - reflexivity.
  - reflexivity.
  - discriminate.
  - reflexivity.
  - reflexivity.
  - reflexivity.
Defined.

Lemma jwt_store_error_propagates_witness :
  ∃ e, (jwt Demo.refresh Demo.down).1 = Throw e.
Proof.
  apply (jwt_store_error_propagates Demo.refresh Demo.down 0).
  - vm_compute. lia.
  - reflexivity.
Defined.

Lemma jwt_refresh_idempotent_witness :
  ∃ t w1 w2, jwt Demo.refresh Demo.with_bob = (Ok t, w1)
    ∧ jwt (with_token Demo.refresh t) w1 = (Ok t, w2).
Proof.
  apply (jwt_refresh_idempotent Demo.refresh Demo.with_bob).
  - reflexivity.
  - left; reflexivity.
  - reflexivity.
  - intros k _. reflexivity.
Defined.

Lemma signIn_id_resolves_witness :
  ∃ d, find_by_email (@toLowerCase Demo.strings <$> user_email Demo.ann)
         (users Demo.ann_signed_in) = Some d
    ∧ find_by_id (VStr (user_id (set_id Demo.ann "a11")))
        (users Demo.ann_signed_in) = Some d
    ∧ _id d = user_id (set_id Demo.ann "a11")
    ∧ lastLoginAt d = now (Demo.rt 1000 "a11").
Proof.
  apply (@signIn_id_resolves Demo.strings Demo.usernames
           (Demo.rt 1000 "a11") Demo.ann "discord" Demo.empty).
  - left; reflexivity.
  - vm_compute; reflexivity.
Defined.

Lemma signIn_jwt_session_round_trip_witness :
  ∃ d t w2 su',
    find_by_email (@toLowerCase Demo.strings <$> user_email Demo.bob)
      (users Demo.bob_promoted) = Some d
    ∧ jwt Demo.issuance_bob Demo.bob_promoted = (Ok t, w2)
    ∧ users w2 = users Demo.bob_promoted
    ∧ session_user <$> session (Some Demo.plain_session) (Some t)
      = Some (Some su')
    ∧ su' !! "id" = Some (VStr (_id d))
    ∧ ∀ k, k ∈ projected_keys →
        su' !! k = Some (projection_of (select_lean d) k).
Proof.
  apply (@signIn_jwt_session_round_trip Demo.strings Demo.usernames
           (Demo.rt_bob 2000) Demo.bob "google" Demo.with_bob
           (set_id Demo.bob "b0b") Demo.bob_promoted Demo.issuance_bob
           {| provider := "google" |} Demo.plain_session
           {[ "name" := VStr "Bob"; "email" := VStr "bob@x.com" ]}).
  - right; reflexivity.
  - vm_compute; reflexivity.
  - reflexivity.
  - reflexivity.
  - discriminate.
  - reflexivity.
  - reflexivity.
  - reflexivity.
Defined.
